(** * TpsItemOptimizer: the item-tick admission gate, its controller and
      its timestamp store, embedded from [src/src/Optimizer.cpp] and
      [src/src/Optimizer.h].

    The C++ translation unit keeps its whole state in file-level statics
    and mutates them from four hooks.  The embedding gathers the statics
    in one record [State] and turns every function and hook body into a
    function [State -> ... -> State * result].

    Machine integers.  [int] is the 32-bit signed type, [std::uint64_t]
    and [size_t] are 64-bit unsigned.  Values are carried as [Z]; every
    arithmetic operation of the source is followed by the reduction the
    machine applies.  Signed overflow is undefined in C++; the model takes
    the two's-complement result, and the theorems that speak about exact
    sums or products state the representability they need.

    Calls into the host.  [ItemActorTickHook] calls the actor tick of the
    host, [origin(region)], in the middle of its body.  That tick can
    remove or despawn actors, the ticking one included, and each removal
    runs [ActorRemoveHook] or [ActorDespawnHook] on the same statics.
    [gate_origin] and [ItemActorTickHook_origin] take the list of the
    actors that the tick removes.  [gate] and [ItemActorTickHook] are the
    hook for a tick that removes none; in the traces ([step], [run])
    removals are events of their own, between gate calls. *)

From stdpp Require Import gmap fin_maps list.
From Stdlib Require Import ZArith Lia.

Local Open Scope Z_scope.

(** ** Machine arithmetic *)

Module Mach.

Definition INT_MIN : Z := - 2 ^ 31.
Definition INT_MAX : Z := 2 ^ 31 - 1.
Definition U64_MOD : Z := 2 ^ 64.

(** Representable as [int]. *)
Definition int_range (z : Z) : Prop := INT_MIN <= z <= INT_MAX.

(** Representable as [std::uint64_t] / [size_t]. *)
Definition u64_range (z : Z) : Prop := 0 <= z < U64_MOD.

(** Two's-complement reduction to 32 bits. *)
Definition to_int (z : Z) : Z := (z + 2 ^ 31) mod 2 ^ 32 - 2 ^ 31.

(** [static_cast<std::uint64_t>(z)], also the reduction after unsigned
    arithmetic. *)
Definition to_u64 (z : Z) : Z := z mod U64_MOD.

Definition int_add (a b : Z) : Z := to_int (a + b).
Definition int_sub (a b : Z) : Z := to_int (a - b).
Definition int_mul (a b : Z) : Z := to_int (a * b).

Definition u64_sub (a b : Z) : Z := to_u64 (a - b).
(** [++c] on a [size_t]. *)
Definition u64_incr (c : Z) : Z := to_u64 (c + 1).

End Mach.

Import Mach.

(** ** Data model *)

(** [struct Config] of Optimizer.h, with its default member initialisers
    as [default_config]. *)
Record Config : Type := mkConfig {
  version : Z;
  enabled : bool;
  debug : bool;
  targetTickMs : Z;
  maxPerTickStep : Z;
  cooldownTicksStep : Z;
  cleanupIntervalTicks : Z;
  maxExpiredAge : Z;
  initialMapReserve : Z
}.

Definition default_config : Config :=
  {| version := 1; enabled := true; debug := false;
     targetTickMs := 50; maxPerTickStep := 2; cooldownTicksStep := 1;
     cleanupIntervalTicks := 100; maxExpiredAge := 600;
     initialMapReserve := 500 |}.

(** The file-level statics of Optimizer.cpp.  [lastItemTick] is the
    [std::unordered_map<ActorUniqueID, std::uint64_t>]; an [ActorUniqueID]
    is its 64-bit raw id. *)
Record State : Type := mkState {
  config : Config;
  debugTaskRunning : bool;
  lastItemTick : gmap Z Z;
  processedThisTick : Z;
  lastTickId : Z;
  cleanupCounter : Z;
  dynMaxPerTick : Z;
  dynCooldownTicks : Z;
  totalProcessed : Z;
  totalCooldownSkipped : Z;
  totalThrottleSkipped : Z;
  totalDespawnCleaned : Z;
  totalExpiredCleaned : Z
}.

(** The static initialisers. *)
Definition init_state : State :=
  {| config := default_config; debugTaskRunning := false;
     lastItemTick := ∅;
     processedThisTick := 0; lastTickId := 0; cleanupCounter := 0;
     dynMaxPerTick := 20; dynCooldownTicks := 2;
     totalProcessed := 0; totalCooldownSkipped := 0;
     totalThrottleSkipped := 0; totalDespawnCleaned := 0;
     totalExpiredCleaned := 0 |}.

(** Field updates ([x.f = v] on the statics). *)
Definition with_config (s : State) (c : Config) : State :=
  mkState c (debugTaskRunning s) (lastItemTick s) (processedThisTick s)
    (lastTickId s) (cleanupCounter s) (dynMaxPerTick s) (dynCooldownTicks s)
    (totalProcessed s) (totalCooldownSkipped s) (totalThrottleSkipped s)
    (totalDespawnCleaned s) (totalExpiredCleaned s).

Definition with_debugTaskRunning (s : State) (b : bool) : State :=
  mkState (config s) b (lastItemTick s) (processedThisTick s)
    (lastTickId s) (cleanupCounter s) (dynMaxPerTick s) (dynCooldownTicks s)
    (totalProcessed s) (totalCooldownSkipped s) (totalThrottleSkipped s)
    (totalDespawnCleaned s) (totalExpiredCleaned s).

Definition with_lastItemTick (s : State) (m : gmap Z Z) : State :=
  mkState (config s) (debugTaskRunning s) m (processedThisTick s)
    (lastTickId s) (cleanupCounter s) (dynMaxPerTick s) (dynCooldownTicks s)
    (totalProcessed s) (totalCooldownSkipped s) (totalThrottleSkipped s)
    (totalDespawnCleaned s) (totalExpiredCleaned s).

Definition with_processedThisTick (s : State) (n : Z) : State :=
  mkState (config s) (debugTaskRunning s) (lastItemTick s) n
    (lastTickId s) (cleanupCounter s) (dynMaxPerTick s) (dynCooldownTicks s)
    (totalProcessed s) (totalCooldownSkipped s) (totalThrottleSkipped s)
    (totalDespawnCleaned s) (totalExpiredCleaned s).

Definition with_lastTickId (s : State) (n : Z) : State :=
  mkState (config s) (debugTaskRunning s) (lastItemTick s)
    (processedThisTick s) n (cleanupCounter s) (dynMaxPerTick s)
    (dynCooldownTicks s)
    (totalProcessed s) (totalCooldownSkipped s) (totalThrottleSkipped s)
    (totalDespawnCleaned s) (totalExpiredCleaned s).

Definition with_cleanupCounter (s : State) (n : Z) : State :=
  mkState (config s) (debugTaskRunning s) (lastItemTick s)
    (processedThisTick s) (lastTickId s) n (dynMaxPerTick s)
    (dynCooldownTicks s)
    (totalProcessed s) (totalCooldownSkipped s) (totalThrottleSkipped s)
    (totalDespawnCleaned s) (totalExpiredCleaned s).

Definition with_dyn (s : State) (maxPerTick cooldownTicks : Z) : State :=
  mkState (config s) (debugTaskRunning s) (lastItemTick s)
    (processedThisTick s) (lastTickId s) (cleanupCounter s)
    maxPerTick cooldownTicks
    (totalProcessed s) (totalCooldownSkipped s) (totalThrottleSkipped s)
    (totalDespawnCleaned s) (totalExpiredCleaned s).

Definition with_totalProcessed (s : State) (n : Z) : State :=
  mkState (config s) (debugTaskRunning s) (lastItemTick s)
    (processedThisTick s) (lastTickId s) (cleanupCounter s)
    (dynMaxPerTick s) (dynCooldownTicks s)
    n (totalCooldownSkipped s) (totalThrottleSkipped s)
    (totalDespawnCleaned s) (totalExpiredCleaned s).

Definition with_totalCooldownSkipped (s : State) (n : Z) : State :=
  mkState (config s) (debugTaskRunning s) (lastItemTick s)
    (processedThisTick s) (lastTickId s) (cleanupCounter s)
    (dynMaxPerTick s) (dynCooldownTicks s)
    (totalProcessed s) n (totalThrottleSkipped s)
    (totalDespawnCleaned s) (totalExpiredCleaned s).

Definition with_totalThrottleSkipped (s : State) (n : Z) : State :=
  mkState (config s) (debugTaskRunning s) (lastItemTick s)
    (processedThisTick s) (lastTickId s) (cleanupCounter s)
    (dynMaxPerTick s) (dynCooldownTicks s)
    (totalProcessed s) (totalCooldownSkipped s) n
    (totalDespawnCleaned s) (totalExpiredCleaned s).

Definition with_totalDespawnCleaned (s : State) (n : Z) : State :=
  mkState (config s) (debugTaskRunning s) (lastItemTick s)
    (processedThisTick s) (lastTickId s) (cleanupCounter s)
    (dynMaxPerTick s) (dynCooldownTicks s)
    (totalProcessed s) (totalCooldownSkipped s) (totalThrottleSkipped s)
    n (totalExpiredCleaned s).

Definition with_totalExpiredCleaned (s : State) (n : Z) : State :=
  mkState (config s) (debugTaskRunning s) (lastItemTick s)
    (processedThisTick s) (lastTickId s) (cleanupCounter s)
    (dynMaxPerTick s) (dynCooldownTicks s)
    (totalProcessed s) (totalCooldownSkipped s) (totalThrottleSkipped s)
    (totalDespawnCleaned s) n.

(** ** Configuration loading (Optimizer.cpp, lines 49-59 and 107-119) *)

(** The six checks of [loadConfig], one per source line (52-57):
    [if (config.f < 1) config.f = d;], and [== 0] for
    [initialMapReserve]. *)
Definition check_cleanupIntervalTicks (c : Config) : Config :=
  if cleanupIntervalTicks c <? 1
  then mkConfig (version c) (enabled c) (debug c) (targetTickMs c)
         (maxPerTickStep c) (cooldownTicksStep c) 100
         (maxExpiredAge c) (initialMapReserve c)
  else c.

Definition check_maxExpiredAge (c : Config) : Config :=
  if maxExpiredAge c <? 1
  then mkConfig (version c) (enabled c) (debug c) (targetTickMs c)
         (maxPerTickStep c) (cooldownTicksStep c)
         (cleanupIntervalTicks c) 600 (initialMapReserve c)
  else c.

Definition check_initialMapReserve (c : Config) : Config :=
  if initialMapReserve c =? 0
  then mkConfig (version c) (enabled c) (debug c) (targetTickMs c)
         (maxPerTickStep c) (cooldownTicksStep c)
         (cleanupIntervalTicks c) (maxExpiredAge c) 500
  else c.

Definition check_maxPerTickStep (c : Config) : Config :=
  if maxPerTickStep c <? 1
  then mkConfig (version c) (enabled c) (debug c) (targetTickMs c)
         1 (cooldownTicksStep c)
         (cleanupIntervalTicks c) (maxExpiredAge c) (initialMapReserve c)
  else c.

Definition check_cooldownTicksStep (c : Config) : Config :=
  if cooldownTicksStep c <? 1
  then mkConfig (version c) (enabled c) (debug c) (targetTickMs c)
         (maxPerTickStep c) 1
         (cleanupIntervalTicks c) (maxExpiredAge c) (initialMapReserve c)
  else c.

Definition check_targetTickMs (c : Config) : Config :=
  if targetTickMs c <? 1
  then mkConfig (version c) (enabled c) (debug c) 50
         (maxPerTickStep c) (cooldownTicksStep c)
         (cleanupIntervalTicks c) (maxExpiredAge c) (initialMapReserve c)
  else c.

(** [ll::config::loadConfig(config, path)] belongs to the host library:
    it overwrites [config] with what the file holds and reports whether
    the file was read.  Its two results enter as [parsed] (the value of
    [config] after that call; fields absent from the file still hold what
    [config] held) and [loaded].  The six checks that follow are the
    repository's own. *)
Definition loadConfig (s : State) (parsed : Config) (loaded : bool)
  : State * bool :=
  let c := parsed in
  let c := check_cleanupIntervalTicks c in
  let c := check_maxExpiredAge c in
  let c := check_initialMapReserve c in
  let c := check_maxPerTickStep c in
  let c := check_cooldownTicksStep c in
  let c := check_targetTickMs c in
  (with_config s c, loaded).

(** [Optimizer::load]: when [loadConfig] reports failure the resolved
    configuration is written back ([saveConfig], a file effect only); the
    [reserve] capacity hint does not change the contents of the map. *)
Definition load (s : State) (parsed : Config) (loaded : bool)
  : State * bool :=
  (fst (loadConfig s parsed loaded), true).

(** ** Lifecycle (lines 66-142) *)

Definition resetStats (s : State) : State :=
  mkState (config s) (debugTaskRunning s) (lastItemTick s)
    (processedThisTick s) (lastTickId s) (cleanupCounter s)
    (dynMaxPerTick s) (dynCooldownTicks s) 0 0 0 0 0.

(** [startDebugTask] launches the reporting coroutine unless it runs
    already; only the flag is state. *)
Definition startDebugTask (s : State) : State :=
  if debugTaskRunning s then s else with_debugTaskRunning s true.

Definition stopDebugTask (s : State) : State :=
  with_debugTaskRunning s false.

(** The body the reporting task posts to the server thread every five
    seconds: log the counters, then reset them, when [config.debug]. *)
Definition debugReport (s : State) : State :=
  if negb (debug (config s)) then s else resetStats s.

Definition enable (s : State) : State * bool :=
  let s := with_dyn s (int_mul (maxPerTickStep (config s)) 10)
                      (int_mul (cooldownTicksStep (config s)) 2) in
  let s := if debug (config s) then startDebugTask s else s in
  (s, true).

Definition disable (s : State) : State * bool :=
  let s := stopDebugTask s in
  let s := with_lastItemTick s ∅ in
  let s := with_processedThisTick s 0 in
  let s := with_lastTickId s 0 in
  let s := with_cleanupCounter s 0 in
  let s := resetStats s in
  (s, true).

(** ** The timestamp store and its sweep (lines 167-179, 187, 241) *)

(** The removal test of the sweep loop:
    [currentTick - it->second > static_cast<std::uint64_t>(maxExpiredAge)],
    an unsigned 64-bit comparison. *)
Definition expired (currentTick maxAge lastTick : Z) : bool :=
  to_u64 maxAge <? u64_sub currentTick lastTick.

(** One iteration of the loop on entry [(k, v)]: erase it and count it,
    or step over it.  The accumulator is the map being swept together
    with [totalExpiredCleaned]. *)
Definition sweep_step (currentTick maxAge : Z) (k v : Z)
    (acc : gmap Z Z * Z) : gmap Z Z * Z :=
  if expired currentTick maxAge v
  then (delete k acc.1, u64_incr acc.2)
  else acc.

(** The loop itself: one pass over every entry of the store. *)
Definition sweep (currentTick maxAge : Z) (m : gmap Z Z) (cleaned : Z)
  : gmap Z Z * Z :=
  map_fold (sweep_step currentTick maxAge) (m, cleaned) m.

(** The entries the sweep loop erases, and the ones it steps over. *)
Definition is_expired (currentTick maxAge : Z) (kv : Z * Z) : Prop :=
  expired currentTick maxAge kv.2 = true.

Definition is_fresh (currentTick maxAge : Z) (kv : Z * Z) : Prop :=
  expired currentTick maxAge kv.2 = false.

#[global] Instance is_expired_dec (currentTick maxAge : Z) (kv : Z * Z)
  : Decision (is_expired currentTick maxAge kv) := bool_eq_dec _ _.

#[global] Instance is_fresh_dec (currentTick maxAge : Z) (kv : Z * Z)
  : Decision (is_fresh currentTick maxAge kv) := bool_eq_dec _ _.

(** [lastItemTick.emplace(id, v)]: the map, the value the returned
    iterator points at, and the [inserted] flag. *)
Definition emplace (m : gmap Z Z) (k v : Z) : gmap Z Z * Z * bool :=
  match m !! k with
  | Some old => (m, old, false)
  | None => (<[k:=v]> m, v, true)
  end.

(** [lastItemTick.erase(id)]: the map and the number of erased entries. *)
Definition erase (m : gmap Z Z) (k : Z) : gmap Z Z * Z :=
  match m !! k with
  | Some _ => (delete k m, 1)
  | None => (m, 0)
  end.

(** ** The admission gate: [ItemActorTickHook] (lines 147-201) *)

(** What a call of the hook does with the actor's tick.  [PassThrough]
    is the first [return origin(region)] (feature off, or not an item);
    the two denials return [true] without calling [origin]; [Allow]
    calls [origin] and accounts for it. *)
Inductive Admission : Type :=
  | PassThrough
  | DenyThrottle
  | DenyCooldown
  | Allow.

Global Instance Admission_eq_dec : EqDecision Admission.
Proof. solve_decision. Defined.

(** The [bool] the hook hands back, given what [origin(region)]
    returns. *)
Definition hook_return (d : Admission) (origin_result : bool) : bool :=
  match d with
  | PassThrough | Allow => origin_result
  | DenyThrottle | DenyCooldown => true
  end.

(** Lines 163-180: the block guarded by [currentTick != lastTickId]. *)
Definition frame_boundary (s : State) (currentTick : Z) : State :=
  if currentTick =? lastTickId s then s
  else
    let s := with_lastTickId s currentTick in
    let s := with_processedThisTick s 0 in
    let s := with_cleanupCounter s (int_add (cleanupCounter s) 1) in
    if cleanupIntervalTicks (config s) <=? cleanupCounter s then
      let s := with_cleanupCounter s 0 in
      let r := sweep currentTick (maxExpiredAge (config s))
                     (lastItemTick s) (totalExpiredCleaned s) in
      with_totalExpiredCleaned (with_lastItemTick s r.1) r.2
    else s.

(** Whether a call of the gate at [currentTick] runs the sweep: the tick
    is new and the cadence counter reaches [cleanupIntervalTicks]. *)
Definition sweep_due (s : State) (currentTick : Z) : bool :=
  negb (currentTick =? lastTickId s) &&
  (cleanupIntervalTicks (config s) <=? int_add (cleanupCounter s) 1).

(** Lines 182-200: quota check, [emplace], cooldown check, accounting,
    for a call whose [origin(region)] (line 197, between
    [++processedThisTick] and the timestamp write) runs no hook of this
    file.  [gate_origin] below is the same block for an [origin] that
    removes or despawns actors; [gate] is its instance without such
    removals ([gate_origin_nil]). *)
Definition gate (s : State) (uid currentTick : Z) : State * Admission :=
  if dynMaxPerTick s <=? processedThisTick s then
    (with_totalThrottleSkipped s (u64_incr (totalThrottleSkipped s)),
     DenyThrottle)
  else
    let '(m, second, inserted) := emplace (lastItemTick s) uid 0 in
    let s := with_lastItemTick s m in
    if negb inserted &&
       (u64_sub currentTick second <? to_u64 (dynCooldownTicks s))
    then
      (with_totalCooldownSkipped s (u64_incr (totalCooldownSkipped s)),
       DenyCooldown)
    else
      let s := with_processedThisTick s (int_add (processedThisTick s) 1) in
      let s := with_lastItemTick s (<[uid:=currentTick]> (lastItemTick s)) in
      let s := with_totalProcessed s (u64_incr (totalProcessed s)) in
      (s, Allow).

Definition ItemActorTickHook (s : State) (is_item : bool)
    (uid currentTick : Z) : State * Admission :=
  if negb (enabled (config s)) || negb is_item then (s, PassThrough)
  else gate (frame_boundary s currentTick) uid currentTick.

(** ** The controller: [LevelTickHook] (lines 204-229) *)

(** [elapsed] is the measured duration of [origin()] in milliseconds (a
    64-bit count, compared with [targetTickMs] after the usual
    promotion). *)
Definition LevelTickHook (s : State) (elapsed : Z) : State :=
  if negb (enabled (config s)) then s
  else if targetTickMs (config s) <? elapsed then
    with_dyn s
      (Z.max 8 (int_sub (dynMaxPerTick s) (maxPerTickStep (config s))))
      (Z.min 10 (int_add (dynCooldownTicks s) (cooldownTicksStep (config s))))
  else
    with_dyn s
      (Z.min 200 (int_add (dynMaxPerTick s) (maxPerTickStep (config s))))
      (Z.max 1 (int_sub (dynCooldownTicks s) (cooldownTicksStep (config s)))).

(** ** Lifecycle hooks (lines 232-260) *)

Definition ActorDespawnHook (s : State) (uid : Z) : State :=
  if enabled (config s) then
    let '(m, n) := erase (lastItemTick s) uid in
    let s := with_lastItemTick s m in
    if 0 <? n
    then with_totalDespawnCleaned s (u64_incr (totalDespawnCleaned s))
    else s
  else s.

Definition ActorRemoveHook (s : State) (uid : Z) : State :=
  if enabled (config s) then
    let '(m, n) := erase (lastItemTick s) uid in
    let s := with_lastItemTick s m in
    if 0 <? n
    then with_totalDespawnCleaned s (u64_incr (totalDespawnCleaned s))
    else s
  else s.

(** ** The host's actor tick inside the gate (line 197) *)



(** [origin(region)] is the actor tick of the host.  It can remove or
    despawn actors, the ticking one included, and each [Actor::$remove]
    and [Actor::$despawn] runs [ActorRemoveHook] or [ActorDespawnHook]
    (one body) on the statics.  [removed] lists the actors concerned, in
    order.  The tick is taken to start no other hook of this file. *)
Definition origin (s : State) (removed : list Z) : State :=
  foldl ActorRemoveHook s removed.

(** [it->second = v] through the iterator that [emplace] returned.  While
    the element is in the map the write lands in it.  Once the element
    has been erased the iterator dangles: the write, undefined in C++,
    does not reach the map, which is left without the entry. *)
Definition iterator_write (m : gmap Z Z) (k v : Z) : gmap Z Z :=
  match m !! k with
  | Some _ => <[k:=v]> m
  | None => m
  end.

(** Lines 182-200 with [origin(region)] in its place. *)
Definition gate_origin (s : State) (uid currentTick : Z)
    (removed : list Z) : State * Admission :=
  if dynMaxPerTick s <=? processedThisTick s then
    (with_totalThrottleSkipped s (u64_incr (totalThrottleSkipped s)),
     DenyThrottle)
  else
    let '(m, second, inserted) := emplace (lastItemTick s) uid 0 in
    let s := with_lastItemTick s m in
    if negb inserted &&
       (u64_sub currentTick second <? to_u64 (dynCooldownTicks s))
    then
      (with_totalCooldownSkipped s (u64_incr (totalCooldownSkipped s)),
       DenyCooldown)
    else
      let s := with_processedThisTick s (int_add (processedThisTick s) 1) in
      let s := origin s removed in
      let s := with_lastItemTick s
                 (iterator_write (lastItemTick s) uid currentTick) in
      let s := with_totalProcessed s (u64_incr (totalProcessed s)) in
      (s, Allow).

(** The whole hook, lines 157-200: the pass-through is
    [return origin(region)] as well. *)
Definition ItemActorTickHook_origin (s : State) (is_item : bool)
    (uid currentTick : Z) (removed : list Z) : State * Admission :=
  if negb (enabled (config s)) || negb is_item
  then (origin s removed, PassThrough)
  else gate_origin (frame_boundary s currentTick) uid currentTick removed.

(** ** Runs of hook calls *)

(** The gate called for each item of [uids] in turn, all with the same
    [currentTick]: the calls of one frame. *)
Fixpoint frame_run (s : State) (currentTick : Z) (uids : list Z)
  : State * list Admission :=
  match uids with
  | [] => (s, [])
  | uid :: rest =>
      let '(s1, d) := ItemActorTickHook s true uid currentTick in
      let '(s2, ds) := frame_run s1 currentTick rest in
      (s2, d :: ds)
  end.

(** How many calls of a run were allowed. *)
Definition count_allow (ds : list Admission) : nat :=
  length (filter (λ d, d = Allow) ds).

(** What the host can do to the statics. *)
Inductive Event : Type :=
  | EvLoad (parsed : Config) (loaded : bool)
  | EvEnable
  | EvDisable
  | EvItemTick (is_item : bool) (uid currentTick : Z)
  | EvLevelTick (elapsed : Z)
  | EvDespawn (uid : Z)
  | EvRemove (uid : Z)
  | EvDebugReport.

Definition step (s : State) (e : Event) : State :=
  match e with
  | EvLoad parsed loaded => fst (load s parsed loaded)
  | EvEnable => fst (enable s)
  | EvDisable => fst (disable s)
  | EvItemTick is_item uid currentTick =>
      fst (ItemActorTickHook s is_item uid currentTick)
  | EvLevelTick elapsed => LevelTickHook s elapsed
  | EvDespawn uid => ActorDespawnHook s uid
  | EvRemove uid => ActorRemoveHook s uid
  | EvDebugReport => debugReport s
  end.

Definition run (s : State) (es : list Event) : State :=
  foldl step s es.

(** ** Concrete configurations and traces used in the examples *)

(** Both steps 1: [enable] gives quota 10 and cooldown 2. *)
Definition cfg_step1 : Config :=
  mkConfig 1 true false 50 1 1 100 600 500.

(** As [cfg_step1], sweeping at every new tick with [maxExpiredAge = 1]. *)
Definition cfg_sweep_every_tick : Config :=
  mkConfig 1 true false 50 1 1 1 1 500.

(** Loaded with [cfg_step1] and enabled. *)
Definition st_step1 : State :=
  run init_state [EvLoad cfg_step1 true; EvEnable].

(** [st_step1] after a frame at tick 5 that admitted items 1..10: the
    quota of 10 is used up. *)
Definition st_tick5_full : State :=
  (frame_run st_step1 5 [1; 2; 3; 4; 5; 6; 7; 8; 9; 10]).1.


(** Loaded with [cfg_sweep_every_tick], enabled, one over-budget level
    tick (quota 9, cooldown 3), then item 1 admitted at tick 5. *)
Definition st_sweepy_tick5 : State :=
  run init_state [EvLoad cfg_sweep_every_tick true; EvEnable;
                  EvLevelTick 60; EvItemTick true 1 5].

(** Steps 50 and 6, every field valid for [loadConfig]. *)
Definition cfg_step50 : Config :=
  mkConfig 1 true false 50 50 6 100 600 500.

(** The defaults of the struct with a negative capacity hint. *)
Definition cfg_negative_reserve : Config :=
  mkConfig 1 true false 50 2 1 100 600 (-5).

(** The defaults of the struct with the feature switched off. *)
Definition cfg_disabled : Config :=
  mkConfig 1 false false 50 2 1 100 600 500.

(** Loaded with [cfg_disabled]; the store still holds an entry written
    before. *)
Definition st_disabled : State :=
  run init_state [EvEnable; EvItemTick true 1 5; EvLoad cfg_disabled true].

(** ** States that differ in the telemetry counters only *)

(** Two states agree on everything the hooks decide by when they are
    equal once their counters are reset. *)
Definition same_core (s1 s2 : State) : Prop :=
  resetStats s1 = resetStats s2.

(** A configuration every check of [loadConfig] accepts. *)
Definition config_valid (c : Config) : Prop :=
  1 <= cleanupIntervalTicks c ∧ 1 <= maxExpiredAge c ∧
  initialMapReserve c ≠ 0 ∧ 1 <= maxPerTickStep c ∧
  1 <= cooldownTicksStep c ∧ 1 <= targetTickMs c.

(** ** Sequences of frame ends *)

(** [LevelTickHook] called at the end of consecutive frames whose
    measured durations are [elapsed]. *)
Definition frame_ends (s : State) (elapsed : list Z) : State :=
  foldl LevelTickHook s elapsed.

(** ** Sequences of gate calls over several frames *)

(** The item hook called for each [(uid, currentTick)] of [calls] in
    turn. *)
Definition item_ticks (s : State) (calls : list (Z * Z)) : State :=
  foldl (λ s c, (ItemActorTickHook s true c.1 c.2).1) s calls.

(** How often the tick of a call differs from the tick seen last:
    the number of frames opened by a sequence of calls. *)
Fixpoint tick_changes (last : Z) (ticks : list Z) : nat :=
  match ticks with
  | [] => 0
  | t :: rest =>
      if t =? last then tick_changes t rest
      else S (tick_changes t rest)
  end.

(** ** Ticks that do not go back *)

(** The frame id is a 64-bit value and no stored timestamp lies after
    it. *)
Definition timestamps_bounded (s : State) : Prop :=
  0 <= lastTickId s < U64_MOD ∧
  map_Forall (λ _ v, 0 <= v <= lastTickId s) (lastItemTick s).

(** Every call of the item hook in [es] carries a tick that is a 64-bit
    value and not before the tick seen last. *)
Fixpoint ticks_in_order (s : State) (es : list Event) : Prop :=
  match es with
  | [] => True
  | e :: rest =>
      match e with
      | EvItemTick _ _ t => lastTickId s <= t < U64_MOD
      | _ => True
      end ∧ ticks_in_order (step s e) rest
  end.

(** ** The [int] statics within their type *)

Definition ints_in_range (s : State) : Prop :=
  0 <= processedThisTick s <= INT_MAX ∧
  0 <= cleanupCounter s < INT_MAX ∧
  int_range (dynMaxPerTick s) ∧
  int_range (dynCooldownTicks s) ∧
  cleanupIntervalTicks (config s) <= INT_MAX.

(** A trace event that loads no [cleanupIntervalTicks] beyond [int]. *)
Definition load_int (e : Event) : Prop :=
  match e with
  | EvLoad parsed _ => cleanupIntervalTicks parsed <= INT_MAX
  | _ => True
  end.

(** ** Predicates of the controller bounds *)

(** The bounds the controller clamps to. *)
Definition dyn_in_range (s : State) : Prop :=
  8 <= dynMaxPerTick s <= 200 ∧ 1 <= dynCooldownTicks s <= 10.

(** Steps whose initial values [step * 10] and [step * 2] fall within
    those bounds. *)
Definition steps_small (c : Config) : Prop :=
  1 <= maxPerTickStep c <= 20 ∧ 1 <= cooldownTicksStep c <= 5.

(** A trace event that does not load a step above 20, respectively 5. *)
Definition load_small (e : Event) : Prop :=
  match e with
  | EvLoad parsed _ =>
      maxPerTickStep parsed <= 20 ∧ cooldownTicksStep parsed <= 5
  | _ => True
  end.

(** * Properties *)

(** ** Machine arithmetic *)

Section MachFacts.

Lemma to_int_id (z : Z) : int_range z → to_int z = z.
Proof.
  unfold int_range, INT_MIN, INT_MAX, to_int. intros [Hlo Hhi].
  rewrite Z.mod_small; lia.
Qed.

Lemma to_int_range (z : Z) : int_range (to_int z).
Proof.
  unfold int_range, INT_MIN, INT_MAX, to_int.
  pose proof (Z.mod_pos_bound (z + 2 ^ 31) (2 ^ 32) ltac:(lia)). lia.
Qed.

Lemma to_u64_id (z : Z) : u64_range z → to_u64 z = z.
Proof.
  unfold u64_range, to_u64. intros H. apply Z.mod_small. exact H.
Qed.

Lemma to_u64_range (z : Z) : u64_range (to_u64 z).
Proof.
  unfold u64_range, to_u64, U64_MOD. apply Z.mod_pos_bound. lia.
Qed.

Lemma u64_incr_to_u64 (c n : Z) :
  u64_incr (to_u64 (c + n)) = to_u64 (c + (n + 1)).
Proof.
  unfold u64_incr, to_u64.
  rewrite Zplus_mod_idemp_l. f_equal. lia.
Qed.

(** [n] increments of a [size_t] add [n] modulo [2^64]. *)
Lemma u64_incr_iter (n : nat) (c : Z) :
  u64_range c → Nat.iter n u64_incr c = to_u64 (c + Z.of_nat n).
Proof.
  intros Hc. induction n as [|n IH].
  - simpl. rewrite Z.add_0_r. symmetry. by apply to_u64_id.
  - rewrite Nat.iter_succ, IH, u64_incr_to_u64. f_equal. lia.
Qed.

End MachFacts.

(** ** The sweep *)

Section Sweep.

Variables currentTick maxAge : Z.


Lemma filter_expired_insert (m : gmap Z Z) (i x : Z) :
  m !! i = None →
  filter (is_expired currentTick maxAge) (<[i:=x]> m) =
    if expired currentTick maxAge x
    then <[i:=x]> (filter (is_expired currentTick maxAge) m)
    else filter (is_expired currentTick maxAge) m.
Proof.
  intros Hi. destruct (expired currentTick maxAge x) eqn:Hx.
  - by apply map_filter_insert_True.
  - rewrite map_filter_insert_False; [| unfold is_expired; simpl; congruence].
    by rewrite delete_id.
Qed.

(** The loop, started on any map [m0] and run over the entries of [m],
    erases from [m0] the keys of the expired entries of [m] and counts
    them. *)
Lemma sweep_fold (m0 : gmap Z Z) (cleaned : Z) (m : gmap Z Z) :
  map_fold (sweep_step currentTick maxAge) (m0, cleaned) m =
    (m0 ∖ filter (is_expired currentTick maxAge) m,
     Nat.iter (size (filter (is_expired currentTick maxAge) m))
              u64_incr cleaned).
Proof.
  apply (map_fold_weak_ind
    (λ r m, r = (m0 ∖ filter (is_expired currentTick maxAge) m,
                 Nat.iter (size (filter (is_expired currentTick maxAge) m))
                          u64_incr cleaned))).
  - rewrite map_filter_empty, map_difference_empty, map_size_empty. done.
  - clear m. intros i x m r Hi ->.
    rewrite (filter_expired_insert m i x Hi).
    unfold sweep_step. destruct (expired currentTick maxAge x); [| done].
    simpl. rewrite (delete_difference _ _ i x).
    rewrite map_size_insert_None; [done |].
    apply map_lookup_filter_None. left. exact Hi.
Qed.

Lemma difference_filter_expired (m : gmap Z Z) :
  m ∖ filter (is_expired currentTick maxAge) m
    = filter (is_fresh currentTick maxAge) m.
Proof.
  apply map_eq. intros i. apply option_eq. intros v.
  rewrite lookup_difference_Some, map_lookup_filter_Some,
    map_lookup_filter_None.
  unfold is_fresh, is_expired. simpl. split.
  - intros [Hm [Hn | Hn]]; [congruence |].
    split; [done |]. specialize (Hn v Hm). simpl in Hn.
    by destruct (expired currentTick maxAge v).
  - intros [Hm Hf]. split; [done |]. right. intros y Hy. simpl. congruence.
Qed.

(** The sweep keeps exactly the fresh entries and adds the number of
    expired ones to the counter. *)
Lemma sweep_spec (m : gmap Z Z) (cleaned : Z) :
  sweep currentTick maxAge m cleaned =
    (filter (is_fresh currentTick maxAge) m,
     Nat.iter (size (filter (is_expired currentTick maxAge) m))
              u64_incr cleaned).
Proof.
  unfold sweep. by rewrite sweep_fold, difference_filter_expired.
Qed.

Lemma size_fresh_expired (m : gmap Z Z) :
  (size m = size (filter (is_fresh currentTick maxAge) m)
            + size (filter (is_expired currentTick maxAge) m))%nat.
Proof.
  rewrite <- (map_filter_union_complement (is_fresh currentTick maxAge) m) at 1.
  rewrite map_size_disj_union by apply map_disjoint_filter_complement.
  f_equal. f_equal. apply map_filter_ext. intros i x _.
  unfold is_fresh, is_expired. simpl.
  destruct (expired currentTick maxAge x); naive_solver.
Qed.

End Sweep.

(** C5.  After the sweep loop has run for [currentTick] and [maxAge],
    (1) no entry of the store has [currentTick - lastTick > maxAge]
    (both sides as the unsigned 64-bit values the loop compares);
    (2) every entry of the old store with [currentTick - lastTick <=
    maxAge], age exactly [maxAge] included, is still there with its
    timestamp; (3) nothing else is in the store; and (4) the
    expired-cleaned counter has grown by exactly the number of entries
    removed, modulo [2^64]. *)
Theorem sweep_removes_exactly_expired
    (currentTick maxAge : Z) (m : gmap Z Z) (cleaned : Z)
    (Hcleaned : u64_range cleaned) :
  let m' := (sweep currentTick maxAge m cleaned).1 in
  let cleaned' := (sweep currentTick maxAge m cleaned).2 in
  (∀ k lastTick, m' !! k = Some lastTick →
     ¬ (u64_sub currentTick lastTick > to_u64 maxAge)) ∧
  (∀ k lastTick, m !! k = Some lastTick →
     u64_sub currentTick lastTick <= to_u64 maxAge →
     m' !! k = Some lastTick) ∧
  m' ⊆ m ∧
  (size m' <= size m)%nat ∧
  cleaned' = to_u64 (cleaned + Z.of_nat (size m - size m')).
Proof.
  intros m' cleaned'. subst m' cleaned'. rewrite sweep_spec. simpl.
  split; [| split; [| split; [| split]]].
  - intros k v Hk. apply map_lookup_filter_Some in Hk as [_ Hf].
    unfold is_fresh, expired in Hf. simpl in Hf. lia.
  - intros k v Hk Hage. apply map_lookup_filter_Some. split; [done |].
    unfold is_fresh, expired. simpl. lia.
  - apply map_filter_subseteq.
  - apply map_size_filter.
  - rewrite u64_incr_iter by done. do 3 f_equal.
    pose proof (size_fresh_expired currentTick maxAge m). lia.
Qed.

(** The theorem at a store of three entries swept at tick 700 with
    [maxAge = 600]: ages 700, 600 and 10. *)
Lemma sweep_removes_exactly_expired_witness :
  let m : gmap Z Z := <[1:=0]> (<[2:=100]> (<[3:=690]> ∅)) in
  let m' := (sweep 700 600 m 0).1 in
  m' !! 1 = None ∧ m' !! 2 = Some 100 ∧ m' !! 3 = Some 690 ∧
  (sweep 700 600 m 0).2 = to_u64 (0 + Z.of_nat (size m - size m')).
Proof.
  intros m m'.
  pose proof (sweep_removes_exactly_expired 700 600 m 0
                ltac:(unfold u64_range, U64_MOD; lia))
    as (H1 & H2 & _ & _ & H5).
  split; [vm_compute; reflexivity |].
  split; [apply H2; [reflexivity | vm_compute; discriminate] |].
  split; [apply H2; [reflexivity | vm_compute; discriminate] |].
  exact H5.
Defined.

(** ** The frame-boundary block *)

Section FrameBoundary.

Variable s : State.
Variable currentTick : Z.

Lemma frame_boundary_same_tick :
  currentTick = lastTickId s → frame_boundary s currentTick = s.
Proof. intros ->. unfold frame_boundary. by rewrite Z.eqb_refl. Qed.

Lemma frame_boundary_config :
  config (frame_boundary s currentTick) = config s.
Proof.
  unfold frame_boundary. destruct (currentTick =? lastTickId s); [done |].
  simpl. by destruct (_ <=? _).
Qed.

Lemma frame_boundary_dyn :
  dynMaxPerTick (frame_boundary s currentTick) = dynMaxPerTick s ∧
  dynCooldownTicks (frame_boundary s currentTick) = dynCooldownTicks s.
Proof.
  unfold frame_boundary. destruct (currentTick =? lastTickId s); [done |].
  simpl. by destruct (_ <=? _).
Qed.

Lemma frame_boundary_lastTickId :
  lastTickId (frame_boundary s currentTick) = currentTick.
Proof.
  unfold frame_boundary. destruct (currentTick =? lastTickId s) eqn:E.
  - symmetry. by apply Z.eqb_eq.
  - simpl. by destruct (_ <=? _).
Qed.

Lemma frame_boundary_processed :
  processedThisTick (frame_boundary s currentTick) =
    if currentTick =? lastTickId s then processedThisTick s else 0.
Proof.
  unfold frame_boundary. destruct (currentTick =? lastTickId s); [done |].
  simpl. by destruct (_ <=? _).
Qed.


Lemma frame_boundary_store :
  lastItemTick (frame_boundary s currentTick) =
    if sweep_due s currentTick
    then filter (is_fresh currentTick (maxExpiredAge (config s)))
                (lastItemTick s)
    else lastItemTick s.
Proof.
  unfold frame_boundary, sweep_due.
  destruct (currentTick =? lastTickId s); [done |]. simpl.
  destruct (_ <=? _); [| done]. simpl. by rewrite sweep_spec.
Qed.

(** The block only ever erases. *)
Lemma frame_boundary_store_subseteq :
  lastItemTick (frame_boundary s currentTick) ⊆ lastItemTick s.
Proof.
  rewrite frame_boundary_store. destruct (sweep_due s currentTick); [| done].
  apply map_filter_subseteq.
Qed.

Lemma frame_boundary_absent (uid : Z) :
  lastItemTick s !! uid = None →
  lastItemTick (frame_boundary s currentTick) !! uid = None.
Proof.
  intros H. eapply lookup_weaken_None; [exact H |].
  apply frame_boundary_store_subseteq.
Qed.

End FrameBoundary.

Lemma frame_boundary_idem (s : State) (currentTick : Z) :
  frame_boundary (frame_boundary s currentTick) currentTick
    = frame_boundary s currentTick.
Proof.
  apply frame_boundary_same_tick. symmetry. apply frame_boundary_lastTickId.
Qed.

(** ** The admission step *)

Lemma gate_throttled (s : State) (uid currentTick : Z) :
  dynMaxPerTick s <= processedThisTick s →
  gate s uid currentTick =
    (with_totalThrottleSkipped s (u64_incr (totalThrottleSkipped s)),
     DenyThrottle).
Proof.
  intros H. unfold gate.
  destruct (dynMaxPerTick s <=? processedThisTick s) eqn:E; [done | lia].
Qed.

(** What every call of [gate] leaves alone, and how the in-frame counter
    follows the decision. *)
Lemma gate_effect (s : State) (uid currentTick : Z) :
  let r := gate s uid currentTick in
  config r.1 = config s ∧
  lastTickId r.1 = lastTickId s ∧
  dynMaxPerTick r.1 = dynMaxPerTick s ∧
  dynCooldownTicks r.1 = dynCooldownTicks s ∧
  r.2 ≠ PassThrough ∧
  (r.2 = Allow →
     processedThisTick s < dynMaxPerTick s ∧
     processedThisTick r.1 = int_add (processedThisTick s) 1) ∧
  (r.2 ≠ Allow → processedThisTick r.1 = processedThisTick s).
Proof.
  unfold gate.
  destruct (dynMaxPerTick s <=? processedThisTick s) eqn:Eq; simpl.
  { repeat split; done. }
  apply Z.leb_gt in Eq.
  unfold emplace. destruct (lastItemTick s !! uid) as [old |]; simpl.
  - destruct (u64_sub currentTick old <? to_u64 (dynCooldownTicks s));
      simpl; repeat split; done.
  - repeat split; done.
Qed.

Lemma hook_gate (s : State) (uid currentTick : Z) :
  enabled (config s) = true →
  ItemActorTickHook s true uid currentTick =
    gate (frame_boundary s currentTick) uid currentTick.
Proof. intros H. unfold ItemActorTickHook. by rewrite H. Qed.

(** ** Runs within one frame *)

Lemma count_allow_cons (d : Admission) (ds : list Admission) :
  count_allow (d :: ds) =
    if decide (d = Allow) then S (count_allow ds) else count_allow ds.
Proof.
  unfold count_allow. rewrite filter_cons. by destruct (decide (d = Allow)).
Qed.

(** Once the frame is open, the in-frame counter is the number of calls
    allowed so far, and the quota, the frame id and the feature flag do
    not move. *)
Lemma frame_run_in_frame (currentTick : Z) (uids : list Z) :
  ∀ s : State,
    enabled (config s) = true →
    lastTickId s = currentTick →
    int_range (dynMaxPerTick s) →
    0 <= processedThisTick s →
    let r := frame_run s currentTick uids in
    enabled (config r.1) = true ∧
    lastTickId r.1 = currentTick ∧
    dynMaxPerTick r.1 = dynMaxPerTick s ∧
    processedThisTick r.1 = processedThisTick s + Z.of_nat (count_allow r.2).
Proof.
  induction uids as [| uid rest IH]; intros s Hen Htick Hdyn Hp.
  - simpl. repeat split; try done. unfold count_allow. simpl. lia.
  - simpl. rewrite hook_gate by done.
    rewrite frame_boundary_same_tick by done.
    pose proof (gate_effect s uid currentTick) as
      (Hc & Hl & Hm & _ & _ & Hallow & Hother).
    destruct (gate s uid currentTick) as [s1 d] eqn:Ead. simpl in *.
    assert (Hp1 : processedThisTick s1 =
                  processedThisTick s + (if decide (d = Allow) then 1 else 0)).
    { destruct (decide (d = Allow)) as [-> | Hne].
      - destruct (Hallow eq_refl) as [Hlt ->]. unfold int_add.
        apply to_int_id. unfold int_range, INT_MIN, INT_MAX in *. lia.
      - rewrite (Hother Hne). lia. }
    specialize (IH s1).
    destruct (frame_run s1 currentTick rest) as [s2 ds] eqn:Erun.
    simpl in *. rewrite count_allow_cons.
    destruct IH as (H1 & H2 & H3 & H4).
    + congruence.
    + congruence.
    + congruence.
    + destruct (decide (d = Allow)); lia.
    + repeat split; try congruence.
      rewrite H4, Hp1. destruct (decide (d = Allow)); lia.
Qed.

(** The first call of a run opens the frame; the rest of the run sees the
    state that block left. *)
Lemma frame_run_opens (s : State) (currentTick : Z) (uids : list Z) :
  enabled (config s) = true →
  uids ≠ [] →
  frame_run s currentTick uids =
    frame_run (frame_boundary s currentTick) currentTick uids.
Proof.
  intros Hen Hne. destruct uids as [| uid rest]; [done |]. simpl.
  rewrite !hook_gate by (by rewrite ?frame_boundary_config).
  by rewrite frame_boundary_idem.
Qed.

(** C1.  Take a frame: a run of gate calls [calls], all with the same
    [currentTick], started in a state where this frame has admitted
    nothing yet (the tick is new, or the in-frame counter is still 0),
    with a positive quota.  If the number of calls allowed in the run has
    reached [dynMaxPerTick], then the next gate call of the frame, for
    any entity [uid], returns [DenyThrottle]; it increments the
    throttle-skipped counter and changes nothing else, so the timestamp
    store is exactly what it was (no insertion, no timestamp update). *)
Theorem throttle_after_quota_reached
    (s : State) (currentTick : Z) (calls : list Z) (uid : Z)
    (Henabled : enabled (config s) = true)
    (Hquota : 0 < dynMaxPerTick s <= INT_MAX)
    (Hfresh : currentTick ≠ lastTickId s ∨ processedThisTick s = 0)
    (Hreached :
       dynMaxPerTick s
         <= Z.of_nat (count_allow (frame_run s currentTick calls).2)) :
  let s1 := (frame_run s currentTick calls).1 in
  let r := ItemActorTickHook s1 true uid currentTick in
  r.2 = DenyThrottle ∧
  totalThrottleSkipped r.1 = u64_incr (totalThrottleSkipped s1) ∧
  lastItemTick r.1 = lastItemTick s1 ∧
  r.1 = with_totalThrottleSkipped s1 (u64_incr (totalThrottleSkipped s1)).
Proof.
  intros s1 r. subst s1 r.
  assert (Hne : calls ≠ []).
  { intros ->. simpl in Hreached. unfold count_allow in Hreached.
    simpl in Hreached. lia. }
  rewrite frame_run_opens in * by done.
  set (s0 := frame_boundary s currentTick) in *.
  assert (Hp0 : processedThisTick s0 = 0).
  { unfold s0. rewrite frame_boundary_processed.
    destruct (currentTick =? lastTickId s) eqn:E; [| done].
    apply Z.eqb_eq in E. by destruct Hfresh. }
  pose proof (frame_boundary_dyn s currentTick) as [Hd0 _]. fold s0 in Hd0.
  pose proof (frame_run_in_frame currentTick calls s0) as Hrun.
  simpl in Hrun. destruct Hrun as (Hen1 & Ht1 & Hd1 & Hp1).
  - unfold s0. by rewrite frame_boundary_config.
  - apply frame_boundary_lastTickId.
  - rewrite Hd0. unfold int_range, INT_MIN. lia.
  - lia.
  - destruct (frame_run s0 currentTick calls) as [s1 ds] eqn:Erun.
    simpl in *. rewrite hook_gate by done.
    rewrite frame_boundary_same_tick by done.
    rewrite gate_throttled by lia. done.
Qed.

(** The theorem on the trace [st_step1]: ten items admitted at tick 5
    exhaust the quota of 10, and item 11 is throttled. *)
Lemma throttle_after_quota_reached_witness :
  let s1 := (frame_run st_step1 5 [1; 2; 3; 4; 5; 6; 7; 8; 9; 10]).1 in
  let r := ItemActorTickHook s1 true 11 5 in
  r.2 = DenyThrottle ∧
  totalThrottleSkipped r.1 = u64_incr (totalThrottleSkipped s1) ∧
  lastItemTick r.1 = lastItemTick s1 ∧
  r.1 = with_totalThrottleSkipped s1 (u64_incr (totalThrottleSkipped s1)).
Proof.
  apply (throttle_after_quota_reached st_step1 5
           [1; 2; 3; 4; 5; 6; 7; 8; 9; 10] 11).
  - reflexivity.
  - vm_compute. split; [reflexivity | discriminate].
  - left. vm_compute. discriminate.
  - vm_compute. discriminate.
Defined.

(** ** Cooldown *)

(** The in-frame counter after an admitted call is the exact successor
    whenever the quota is an [int]. *)
Lemma int_incr_below (p q : Z) :
  INT_MIN <= p → p < q → q <= INT_MAX → int_add p 1 = p + 1.
Proof.
  intros. unfold int_add. apply to_int_id.
  unfold int_range, INT_MIN, INT_MAX in *. lia.
Qed.

Lemma gate_present (s : State) (uid currentTick lastTick : Z) :
  processedThisTick s < dynMaxPerTick s →
  lastItemTick s !! uid = Some lastTick →
  gate s uid currentTick =
    if u64_sub currentTick lastTick <? to_u64 (dynCooldownTicks s)
    then (with_totalCooldownSkipped s (u64_incr (totalCooldownSkipped s)),
          DenyCooldown)
    else (with_totalProcessed
            (with_lastItemTick
               (with_processedThisTick s (int_add (processedThisTick s) 1))
               (<[uid:=currentTick]> (lastItemTick s)))
            (u64_incr (totalProcessed s)),
          Allow).
Proof.
  intros Hq Hl. unfold gate, emplace.
  destruct (dynMaxPerTick s <=? processedThisTick s) eqn:E; [lia |].
  rewrite Hl. simpl.
  destruct (u64_sub currentTick lastTick <? to_u64 (dynCooldownTicks s));
    simpl; [| done].
  by destruct s.
Qed.

Lemma gate_absent (s : State) (uid currentTick : Z) :
  processedThisTick s < dynMaxPerTick s →
  lastItemTick s !! uid = None →
  gate s uid currentTick =
    (with_totalProcessed
       (with_lastItemTick
          (with_processedThisTick s (int_add (processedThisTick s) 1))
          (<[uid:=currentTick]> (lastItemTick s)))
       (u64_incr (totalProcessed s)),
     Allow).
Proof.
  intros Hq Hl. unfold gate, emplace.
  destruct (dynMaxPerTick s <=? processedThisTick s) eqn:E; [lia |].
  rewrite Hl. simpl. unfold with_totalProcessed, with_lastItemTick. simpl.
  by rewrite insert_insert_eq.
Qed.

(** ** The actor tick inside the gate *)






Lemma origin_disabled (s : State) (removed : list Z) :
  enabled (config s) = false → origin s removed = s.
Proof.
  intros Hoff. induction removed as [| k rest IH]; [done |].
  change (origin s (k :: rest)) with (origin (ActorRemoveHook s k) rest).
  assert (ActorRemoveHook s k = s) as ->; [| done].
  unfold ActorRemoveHook. by rewrite Hoff.
Qed.

(** A tick that removes no actor: the block is [gate]. *)
Lemma gate_origin_nil (s : State) (uid currentTick : Z) :
  gate_origin s uid currentTick [] = gate s uid currentTick.
Proof.
  unfold gate_origin, gate, emplace, origin, iterator_write.
  destruct (dynMaxPerTick s <=? processedThisTick s); [done |].
  destruct (lastItemTick s !! uid) as [T |] eqn:Hl; simpl.
  - destruct (u64_sub currentTick T <? to_u64 (dynCooldownTicks s));
      [done |].
    simpl. by rewrite Hl.
  - by rewrite lookup_insert_eq.
Qed.

Lemma ItemActorTickHook_origin_nil (s : State) (is_item : bool)
    (uid currentTick : Z) :
  ItemActorTickHook_origin s is_item uid currentTick []
    = ItemActorTickHook s is_item uid currentTick.
Proof.
  unfold ItemActorTickHook_origin, ItemActorTickHook.
  destruct (negb _ || negb _); [done |]. apply gate_origin_nil.
Qed.



















(** ** Ids absent from the store *)




(** The two lifecycle hooks erase the entry and leave the frame state,
    the quota and the configuration alone. *)
Lemma ActorDespawnHook_effect (s : State) (uid : Z) :
  enabled (config s) = true →
  let s' := ActorDespawnHook s uid in
  lastItemTick s' = delete uid (lastItemTick s) ∧
  config s' = config s ∧
  lastTickId s' = lastTickId s ∧
  processedThisTick s' = processedThisTick s ∧
  cleanupCounter s' = cleanupCounter s ∧
  dynMaxPerTick s' = dynMaxPerTick s ∧
  dynCooldownTicks s' = dynCooldownTicks s.
Proof.
  intros Hen. unfold ActorDespawnHook, erase. rewrite Hen.
  destruct (lastItemTick s !! uid) eqn:E; simpl; [done |].
  by rewrite delete_id.
Qed.

Lemma ActorRemoveHook_eq (s : State) (uid : Z) :
  ActorRemoveHook s uid = ActorDespawnHook s uid.
Proof. reflexivity. Qed.

(** The decision for an absent id depends on the quota alone. *)
Lemma hook_absent_decision (s : State) (uid currentTick : Z) :
  enabled (config s) = true →
  lastItemTick s !! uid = None →
  (ItemActorTickHook s true uid currentTick).2 =
    if dynMaxPerTick s <=? processedThisTick (frame_boundary s currentTick)
    then DenyThrottle else Allow.
Proof.
  intros Hen Habs. rewrite hook_gate by done.
  pose proof (frame_boundary_dyn s currentTick) as [Hd _].
  pose proof (frame_boundary_absent s currentTick uid Habs) as Hl0.
  destruct (dynMaxPerTick s <=? _) eqn:E.
  - apply Z.leb_le in E. by rewrite gate_throttled by (rewrite Hd; done).
  - apply Z.leb_gt in E. by rewrite gate_absent by (rewrite ?Hd; done).
Qed.

(** C9.  While the feature is on, a gate call for an id that is absent
    from the store is never [DenyCooldown]: it is [DenyThrottle] when the
    quota of the frame is used up and [Allow] otherwise.  This holds for
    an id never seen, and equally for an id that [ActorDespawnHook] or
    [ActorRemoveHook] has just erased, whatever timestamp it had before:
    the call after the hook decides as for a new id.  (With the feature
    off, or for an actor that is not an item, the hook passes through and
    is not [DenyCooldown] either.) *)
Theorem absent_id_never_cooldown
    (s : State) (uid currentTick : Z)
    (Henabled : enabled (config s) = true) :
  let fresh_decision (s : State) :=
    if dynMaxPerTick s <=? processedThisTick (frame_boundary s currentTick)
    then DenyThrottle else Allow in
  (lastItemTick s !! uid = None →
   (ItemActorTickHook s true uid currentTick).2 = fresh_decision s ∧
   ((ItemActorTickHook s true uid currentTick).2 = Allow ∨
    (ItemActorTickHook s true uid currentTick).2 = DenyThrottle) ∧
   ∀ is_item,
     (ItemActorTickHook s is_item uid currentTick).2 ≠ DenyCooldown) ∧
  (∀ s', s' = ActorDespawnHook s uid ∨ s' = ActorRemoveHook s uid →
   lastItemTick s' !! uid = None ∧
   (ItemActorTickHook s' true uid currentTick).2 = fresh_decision s' ∧
   ((ItemActorTickHook s' true uid currentTick).2 = Allow ∨
    (ItemActorTickHook s' true uid currentTick).2 = DenyThrottle) ∧
   (ItemActorTickHook s' true uid currentTick).2 ≠ DenyCooldown).
Proof.
  intros fresh_decision.
  assert (Hfresh : ∀ s1, enabled (config s1) = true →
            lastItemTick s1 !! uid = None →
            (ItemActorTickHook s1 true uid currentTick).2
              = fresh_decision s1 ∧
            ((ItemActorTickHook s1 true uid currentTick).2 = Allow ∨
             (ItemActorTickHook s1 true uid currentTick).2 = DenyThrottle) ∧
            (ItemActorTickHook s1 true uid currentTick).2 ≠ DenyCooldown).
  { intros s1 Hen Habs.
    rewrite (hook_absent_decision s1 uid currentTick Hen Habs).
    unfold fresh_decision. destruct (dynMaxPerTick s1 <=? _); naive_solver. }
  split.
  - intros Habs. destruct (Hfresh s Henabled Habs) as (H1 & H2 & H3).
    split; [done |]. split; [done |].
    intros [|]; [done |]. unfold ItemActorTickHook.
    rewrite orb_true_r. done.
  - intros s' Hs'.
    assert (s' = ActorDespawnHook s uid) as ->.
    { destruct Hs' as [-> | ->]; [done | apply ActorRemoveHook_eq]. }
    pose proof (ActorDespawnHook_effect s uid Henabled)
      as (Hl & Hc & _).
    assert (Habs : lastItemTick (ActorDespawnHook s uid) !! uid = None).
    { rewrite Hl. apply lookup_delete_eq. }
    split; [done |]. apply Hfresh; [by rewrite Hc | done].
Qed.

(** The theorem on the trace [st_tick5_full]: item 11 was never seen;
    item 1 has timestamp 5 and is despawned.  At tick 6 both are new to
    the gate and admitted, although item 1 would still be cooling down. *)
Lemma absent_id_never_cooldown_witness :
  (ItemActorTickHook st_tick5_full true 11 6).2 ≠ DenyCooldown ∧
  lastItemTick st_tick5_full !! 1 = Some 5 ∧
  (ItemActorTickHook (ActorDespawnHook st_tick5_full 1) true 1 6).2
    ≠ DenyCooldown.
Proof.
  split; [| split].
  - pose proof (proj1 (absent_id_never_cooldown st_tick5_full 11 6 eq_refl)
                  eq_refl) as (_ & _ & H).
    exact (H true).
  - reflexivity.
  - pose proof (proj2 (absent_id_never_cooldown st_tick5_full 1 6 eq_refl)
                  (ActorDespawnHook st_tick5_full 1) (or_introl eq_refl))
      as (_ & _ & _ & H).
    exact H.
Defined.

(** ** The controller *)

(** C4.  A call of the frame-end controller with the feature on: if
    [elapsed > targetTickMs] the quota goes down by [maxPerTickStep] but
    not below 8 and the cooldown goes up by [cooldownTicksStep] but not
    above 10; otherwise the quota goes up by the step but not above 200
    and the cooldown goes down by the step but not below 1.  Nothing else
    of the state changes.  With the feature off the controller changes
    nothing.  The four sums and differences are taken to be representable
    as [int] (they are for every quota, cooldown and step of moderate
    size; outside, the C++ arithmetic is undefined). *)
Theorem controller_policy
    (s : State) (elapsed : Z)
    (Hrep :
       int_range (dynMaxPerTick s - maxPerTickStep (config s)) ∧
       int_range (dynMaxPerTick s + maxPerTickStep (config s)) ∧
       int_range (dynCooldownTicks s - cooldownTicksStep (config s)) ∧
       int_range (dynCooldownTicks s + cooldownTicksStep (config s))) :
  let s' := LevelTickHook s elapsed in
  (enabled (config s) = true →
   (elapsed > targetTickMs (config s) →
    dynMaxPerTick s'
      = Z.max 8 (dynMaxPerTick s - maxPerTickStep (config s)) ∧
    dynCooldownTicks s'
      = Z.min 10 (dynCooldownTicks s + cooldownTicksStep (config s)) ∧
    8 <= dynMaxPerTick s' ∧ dynCooldownTicks s' <= 10) ∧
   (elapsed <= targetTickMs (config s) →
    dynMaxPerTick s'
      = Z.min 200 (dynMaxPerTick s + maxPerTickStep (config s)) ∧
    dynCooldownTicks s'
      = Z.max 1 (dynCooldownTicks s - cooldownTicksStep (config s)) ∧
    dynMaxPerTick s' <= 200 ∧ 1 <= dynCooldownTicks s') ∧
   s' = with_dyn s (dynMaxPerTick s') (dynCooldownTicks s')) ∧
  (enabled (config s) = false → s' = s).
Proof.
  intros s'. subst s'. destruct Hrep as (H1 & H2 & H3 & H4).
  unfold LevelTickHook. split; intros Hen; rewrite Hen; simpl; [| done].
  unfold int_sub, int_add. rewrite !to_int_id by done.
  destruct (targetTickMs (config s) <? elapsed) eqn:E; simpl.
  - apply Z.ltb_lt in E. repeat split; try lia.
  - apply Z.ltb_ge in E. repeat split; try lia.
Qed.

(** The theorem on [st_step1] (quota 10, cooldown 2, steps 1): an
    over-budget frame gives quota 9 and cooldown 3, an in-budget frame
    quota 11 and cooldown 1. *)
Lemma controller_policy_witness :
  (dynMaxPerTick (LevelTickHook st_step1 60) = 9 ∧
   dynCooldownTicks (LevelTickHook st_step1 60) = 3) ∧
  (dynMaxPerTick (LevelTickHook st_step1 50) = 11 ∧
   dynCooldownTicks (LevelTickHook st_step1 50) = 1).
Proof.
  assert (Hrep :
       int_range (dynMaxPerTick st_step1 - maxPerTickStep (config st_step1)) ∧
       int_range (dynMaxPerTick st_step1 + maxPerTickStep (config st_step1)) ∧
       int_range (dynCooldownTicks st_step1
                  - cooldownTicksStep (config st_step1)) ∧
       int_range (dynCooldownTicks st_step1
                  + cooldownTicksStep (config st_step1))).
  { vm_compute. repeat split; discriminate. }
  split.
  - destruct (proj1 (proj1 (controller_policy st_step1 60 Hrep) eq_refl))
      as (Hq & Hc & _); [vm_compute; reflexivity |].
    exact (conj Hq Hc).
  - destruct (proj1 (proj2 (proj1 (controller_policy st_step1 50 Hrep)
                              eq_refl)))
      as (Hq & Hc & _); [vm_compute; discriminate |].
    exact (conj Hq Hc).
Defined.

(** ** Configuration loading *)

(** Each check rewrites one field of the record. *)
Section Checks.

Variables (v : Z) (en db : bool) (tt ms cs ci me ir : Z).

Lemma check_cleanupIntervalTicks_mk :
  check_cleanupIntervalTicks (mkConfig v en db tt ms cs ci me ir) =
    mkConfig v en db tt ms cs (if ci <? 1 then 100 else ci) me ir.
Proof.
  unfold check_cleanupIntervalTicks. simpl. by destruct (ci <? 1).
Qed.

Lemma check_maxExpiredAge_mk :
  check_maxExpiredAge (mkConfig v en db tt ms cs ci me ir) =
    mkConfig v en db tt ms cs ci (if me <? 1 then 600 else me) ir.
Proof. unfold check_maxExpiredAge. simpl. by destruct (me <? 1). Qed.

Lemma check_initialMapReserve_mk :
  check_initialMapReserve (mkConfig v en db tt ms cs ci me ir) =
    mkConfig v en db tt ms cs ci me (if ir =? 0 then 500 else ir).
Proof. unfold check_initialMapReserve. simpl. by destruct (ir =? 0). Qed.

Lemma check_maxPerTickStep_mk :
  check_maxPerTickStep (mkConfig v en db tt ms cs ci me ir) =
    mkConfig v en db tt (if ms <? 1 then 1 else ms) cs ci me ir.
Proof. unfold check_maxPerTickStep. simpl. by destruct (ms <? 1). Qed.

Lemma check_cooldownTicksStep_mk :
  check_cooldownTicksStep (mkConfig v en db tt ms cs ci me ir) =
    mkConfig v en db tt ms (if cs <? 1 then 1 else cs) ci me ir.
Proof. unfold check_cooldownTicksStep. simpl. by destruct (cs <? 1). Qed.

Lemma check_targetTickMs_mk :
  check_targetTickMs (mkConfig v en db tt ms cs ci me ir) =
    mkConfig v en db (if tt <? 1 then 50 else tt) ms cs ci me ir.
Proof. unfold check_targetTickMs. simpl. by destruct (tt <? 1). Qed.

End Checks.

(** What the six checks of [loadConfig] achieve for every parsed value:
    five fields end at least 1, replaced by 100, 600, 1, 1, 50 exactly
    when they were below 1; [initialMapReserve] is replaced by 500 only
    when it was 0; the result of the host parser is passed on. *)
Lemma loadConfig_fields (s : State) (parsed : Config) (loaded : bool) :
  let c := config (loadConfig s parsed loaded).1 in
  (loadConfig s parsed loaded).2 = loaded ∧
  cleanupIntervalTicks c =
    (if cleanupIntervalTicks parsed <? 1 then 100
     else cleanupIntervalTicks parsed) ∧
  maxExpiredAge c =
    (if maxExpiredAge parsed <? 1 then 600 else maxExpiredAge parsed) ∧
  initialMapReserve c =
    (if initialMapReserve parsed =? 0 then 500
     else initialMapReserve parsed) ∧
  maxPerTickStep c =
    (if maxPerTickStep parsed <? 1 then 1 else maxPerTickStep parsed) ∧
  cooldownTicksStep c =
    (if cooldownTicksStep parsed <? 1 then 1
     else cooldownTicksStep parsed) ∧
  targetTickMs c =
    (if targetTickMs parsed <? 1 then 50 else targetTickMs parsed) ∧
  enabled c = enabled parsed ∧ debug c = debug parsed ∧
  version c = version parsed.
Proof.
  destruct parsed as [v en db tt ms cs ci me ir].
  unfold loadConfig. cbv zeta.
  rewrite check_cleanupIntervalTicks_mk, check_maxExpiredAge_mk,
    check_initialMapReserve_mk, check_maxPerTickStep_mk,
    check_cooldownTicksStep_mk, check_targetTickMs_mk.
  repeat split; reflexivity.
Qed.

Lemma loadConfig_at_least_1 (s : State) (parsed : Config) (loaded : bool) :
  let c := config (loadConfig s parsed loaded).1 in
  1 <= cleanupIntervalTicks c ∧ 1 <= maxExpiredAge c ∧
  1 <= maxPerTickStep c ∧ 1 <= cooldownTicksStep c ∧
  1 <= targetTickMs c ∧ initialMapReserve c ≠ 0.
Proof.
  intros c. subst c.
  pose proof (loadConfig_fields s parsed loaded) as H. cbv zeta in H.
  destruct H as (_ & -> & -> & -> & -> & -> & -> & _).
  repeat split.
  - destruct (_ <? 1) eqn:E; [lia | apply Z.ltb_ge in E; lia].
  - destruct (_ <? 1) eqn:E; [lia | apply Z.ltb_ge in E; lia].
  - destruct (_ <? 1) eqn:E; [lia | apply Z.ltb_ge in E; lia].
  - destruct (_ <? 1) eqn:E; [lia | apply Z.ltb_ge in E; lia].
  - destruct (_ <? 1) eqn:E; [lia | apply Z.ltb_ge in E; lia].
  - destruct (_ =? 0) eqn:E; [lia | apply Z.eqb_neq in E; lia].
Qed.

(** C7 at its failing input: a configuration file with
    [initialMapReserve = -5].  The check for this field is [== 0], the
    five others are [< 1]; the negative value passes through
    [loadConfig] unchanged and is below 1. *)
Theorem loadConfig_keeps_negative_reserve :
  let c := config (loadConfig init_state cfg_negative_reserve true).1 in
  initialMapReserve c = -5 ∧
  ¬ (1 <= initialMapReserve c) ∧
  initialMapReserve c ≠ 500.
Proof.
  intros c. assert (Hc : initialMapReserve c = -5) by reflexivity.
  rewrite Hc. lia.
Qed.

(** ** Lifecycle *)

Lemma startDebugTask_frame (s : State) :
  config (startDebugTask s) = config s ∧
  dynMaxPerTick (startDebugTask s) = dynMaxPerTick s ∧
  dynCooldownTicks (startDebugTask s) = dynCooldownTicks s.
Proof. unfold startDebugTask. by destruct (debugTaskRunning s). Qed.

(** [enable] writes the two products and touches nothing of the
    configuration. *)
Lemma enable_effect (s : State) :
  config (enable s).1 = config s ∧
  dynMaxPerTick (enable s).1 = int_mul (maxPerTickStep (config s)) 10 ∧
  dynCooldownTicks (enable s).1
    = int_mul (cooldownTicksStep (config s)) 2.
Proof.
  unfold enable. simpl. destruct (debug (config s)); [| done].
  pose proof (startDebugTask_frame
                (with_dyn s (int_mul (maxPerTickStep (config s)) 10)
                            (int_mul (cooldownTicksStep (config s)) 2)))
    as (-> & -> & ->).
  done.
Qed.

(** C8.  Whatever the state before: [disable] empties the store and sets
    [processedThisTick], [lastTickId], the sweep cadence counter and the
    five telemetry counters to 0, and leaves the configuration as it is;
    [enable] sets the quota to [maxPerTickStep * 10] and the cooldown to
    [cooldownTicksStep * 2]; so [disable] followed by [enable] ends with
    the controller state [(step * 10, step * 2)].  The two products are
    taken to be representable as [int]. *)
Theorem disable_enable_reset
    (s : State)
    (Hquota : int_range (maxPerTickStep (config s) * 10))
    (Hcooldown : int_range (cooldownTicksStep (config s) * 2)) :
  let d := (disable s).1 in
  let e := (enable d).1 in
  (lastItemTick d = ∅ ∧
   processedThisTick d = 0 ∧ lastTickId d = 0 ∧ cleanupCounter d = 0 ∧
   totalProcessed d = 0 ∧ totalCooldownSkipped d = 0 ∧
   totalThrottleSkipped d = 0 ∧ totalDespawnCleaned d = 0 ∧
   totalExpiredCleaned d = 0 ∧
   config d = config s) ∧
  (dynMaxPerTick (enable s).1 = maxPerTickStep (config s) * 10 ∧
   dynCooldownTicks (enable s).1 = cooldownTicksStep (config s) * 2 ∧
   config (enable s).1 = config s) ∧
  (dynMaxPerTick e = maxPerTickStep (config s) * 10 ∧
   dynCooldownTicks e = cooldownTicksStep (config s) * 2).
Proof.
  intros d e. subst d e.
  pose proof (enable_effect s) as (Hc & Hq & Hcd).
  pose proof (enable_effect (disable s).1) as (_ & Hq' & Hcd').
  assert (Hcfg : config (disable s).1 = config s) by reflexivity.
  rewrite Hcfg in Hq', Hcd'. unfold int_mul in *.
  rewrite !to_int_id in * by done.
  split; [repeat split |]; done.
Qed.

(** The theorem on a state with quota 9, cooldown 3 and a non-empty
    store: after [disable] and [enable] the controller state is
    [(1 * 10, 1 * 2)]. *)
Lemma disable_enable_reset_witness :
  dynMaxPerTick st_sweepy_tick5 = 9 ∧
  dynCooldownTicks st_sweepy_tick5 = 3 ∧
  lastItemTick (disable st_sweepy_tick5).1 = ∅ ∧
  dynMaxPerTick (enable (disable st_sweepy_tick5).1).1 = 1 * 10 ∧
  dynCooldownTicks (enable (disable st_sweepy_tick5).1).1 = 1 * 2.
Proof.
  split; [reflexivity |]. split; [reflexivity |].
  destruct (disable_enable_reset st_sweepy_tick5) as (Hd & _ & He1 & He2).
  - vm_compute. split; discriminate.
  - vm_compute. split; discriminate.
  - destruct Hd as (Hstore & _). exact (conj Hstore (conj He1 He2)).
Defined.

(** C10.  [disable] leaves [dynMaxPerTick] and [dynCooldownTicks] (and
    the configuration) as they were; everything else it sets to the
    empty store, [false] and 0.  The two values are replaced only by the
    next [enable], which computes them from the configured steps. *)
Theorem disable_keeps_controller_state (s : State) :
  dynMaxPerTick (disable s).1 = dynMaxPerTick s ∧
  dynCooldownTicks (disable s).1 = dynCooldownTicks s ∧
  (disable s).1 =
    mkState (config s) false ∅ 0 0 0
            (dynMaxPerTick s) (dynCooldownTicks s) 0 0 0 0 0 ∧
  dynMaxPerTick (enable (disable s).1).1
    = int_mul (maxPerTickStep (config s)) 10 ∧
  dynCooldownTicks (enable (disable s).1).1
    = int_mul (cooldownTicksStep (config s)) 2.
Proof.
  pose proof (enable_effect (disable s).1) as (_ & Hq & Hcd).
  assert (Hcfg : config (disable s).1 = config s) by reflexivity.
  rewrite Hcfg in Hq, Hcd. repeat split; done.
Qed.

(** ** The bounds of the controller state *)

Lemma step_config_dyn (s : State) (e : Event) :
  match e with
  | EvLoad _ _ => dynMaxPerTick (step s e) = dynMaxPerTick s ∧
                  dynCooldownTicks (step s e) = dynCooldownTicks s
  | EvEnable => config (step s e) = config s
  | EvLevelTick _ => config (step s e) = config s
  | _ => config (step s e) = config s ∧
         dynMaxPerTick (step s e) = dynMaxPerTick s ∧
         dynCooldownTicks (step s e) = dynCooldownTicks s
  end.
Proof.
  destruct e as [parsed loaded | | | is_item uid t | elapsed | uid | uid |];
    simpl.
  - done.
  - apply enable_effect.
  - done.
  - unfold ItemActorTickHook.
    destruct (negb (enabled (config s)) || negb is_item); [done |].
    pose proof (gate_effect (frame_boundary s t) uid t)
      as (Hc & _ & Hm & Hd & _).
    pose proof (frame_boundary_dyn s t) as [Hm0 Hd0].
    simpl in *. rewrite Hc, Hm, Hd, Hm0, Hd0, frame_boundary_config. done.
  - unfold LevelTickHook. destruct (negb (enabled (config s))); [done |].
    by destruct (_ <? _).
  - unfold ActorDespawnHook. destruct (enabled (config s)); [| done].
    destruct (erase (lastItemTick s) uid) as [m n]. by destruct (0 <? n).
  - unfold ActorRemoveHook. destruct (enabled (config s)); [| done].
    destruct (erase (lastItemTick s) uid) as [m n]. by destruct (0 <? n).
  - unfold debugReport. by destruct (negb (debug (config s))).
Qed.

(** With steps of at most 20 and 5 the bounds are an invariant of every
    event. *)
Lemma step_dyn_in_range (s : State) (e : Event) :
  load_small e →
  dyn_in_range s ∧ steps_small (config s) →
  dyn_in_range (step s e) ∧ steps_small (config (step s e)).
Proof.
  intros He [Hdyn Hsteps].
  pose proof (step_config_dyn s e) as Hfr.
  unfold dyn_in_range, steps_small in *.
  destruct e as [parsed loaded | | | is_item uid t | elapsed | uid | uid |];
    try (destruct Hfr as (-> & -> & ->); done).
  - destruct Hfr as [-> ->]. split; [done |].
    change (step s (EvLoad parsed loaded))
      with (loadConfig s parsed loaded).1.
    pose proof (loadConfig_fields s parsed loaded) as H. cbv zeta in H.
    destruct H as (_ & _ & _ & _ & -> & -> & _). simpl in He.
    destruct (maxPerTickStep parsed <? 1) eqn:E1,
             (cooldownTicksStep parsed <? 1) eqn:E2; lia.
  - rewrite Hfr. split; [| done]. clear Hfr.
    change (step s EvEnable) with (enable s).1.
    pose proof (enable_effect s) as (_ & -> & ->). unfold int_mul.
    rewrite !to_int_id by (unfold int_range, INT_MIN, INT_MAX; lia). lia.
  - rewrite Hfr. split; [| done]. clear Hfr. simpl. unfold LevelTickHook.
    destruct (negb (enabled (config s))); [done |].
    unfold int_add, int_sub.
    destruct (_ <? _); simpl;
      rewrite !to_int_id by (unfold int_range, INT_MIN, INT_MAX; lia); lia.
Qed.

(** Every state reached from the static initialisers by events that load
    no step above 20, respectively 5, has its quota in [8, 200] and its
    cooldown in [1, 10]. *)
Lemma run_dyn_in_range (es : list Event) :
  Forall load_small es → dyn_in_range (run init_state es).
Proof.
  intros Hes.
  enough (H : ∀ s, dyn_in_range s ∧ steps_small (config s) →
                   dyn_in_range (run s es) ∧ steps_small (config (run s es))).
  { apply H. unfold dyn_in_range, steps_small. simpl. lia. }
  induction Hes as [| e es He _ IH]; intros s Hs; [done |].
  simpl. apply IH. by apply step_dyn_in_range.
Qed.

(** C6 at its failing input: a configuration with [maxPerTickStep = 50]
    and [cooldownTicksStep = 6] passes [loadConfig] unchanged, and
    [enable] then sets the quota to 500 and the cooldown to 12, outside
    [8, 200] and [1, 10].  An over-budget frame end keeps the quota
    outside (450). *)
Theorem enable_exceeds_controller_bounds :
  let s := run init_state [EvLoad cfg_step50 true; EvEnable] in
  config s = cfg_step50 ∧
  dynMaxPerTick s = 500 ∧ dynCooldownTicks s = 12 ∧
  ¬ dyn_in_range s ∧
  dynMaxPerTick (LevelTickHook s 60) = 450 ∧
  ¬ dyn_in_range (LevelTickHook s 60).
Proof.
  vm_compute. repeat split; try discriminate.
  - intros [[_ H] _]. by apply H.
  - intros [[_ H] _]. by apply H.
Qed.

(** ** The scenarios of the specification, run on the model *)

(** Quota 20 and cooldown 2 (the defaults after [enable]): an item first
    seen at tick 100 is allowed; called again at tick 100 and at tick 101
    it is inside its cooldown; at tick 102 it is allowed again. *)
Example scenario_cooldown :
  let s0 := run init_state [EvEnable] in
  let r1 := ItemActorTickHook s0 true 7 100 in
  let r2 := ItemActorTickHook r1.1 true 7 100 in
  let r3 := ItemActorTickHook r2.1 true 7 101 in
  let r4 := ItemActorTickHook r3.1 true 7 102 in
  (dynMaxPerTick s0, dynCooldownTicks s0) = (20, 2) ∧
  [r1.2; r2.2; r3.2; r4.2] = [Allow; DenyCooldown; DenyCooldown; Allow] ∧
  lastItemTick r1.1 !! 7 = Some 100 ∧
  lastItemTick r4.1 !! 7 = Some 102 ∧
  totalProcessed r4.1 = 2 ∧ totalCooldownSkipped r4.1 = 2.
Proof. vm_compute. repeat split; reflexivity. Qed.

(** An entry written at tick 0 and never touched again is gone after the
    hundredth new tick, tick 601, with [cleanupIntervalTicks = 100] and
    [maxExpiredAge = 600]; the expired-cleaned counter is 1. *)
Example scenario_sweep :
  let s0 := run init_state [EvEnable; EvItemTick true 7 0] in
  let ticks :=
    (λ n : nat, EvItemTick true 8 (502 + Z.of_nat n)) <$> seq 0 100 in
  let s1 := run s0 ticks in
  lastItemTick s0 !! 7 = Some 0 ∧
  lastTickId s1 = 601 ∧
  lastItemTick s1 !! 7 = None ∧
  totalExpiredCleaned s1 = 1.
Proof. vm_compute. repeat split; reflexivity. Qed.

(** An item that its own tick removes (picked up, merged into another
    stack): item 1, not seen before, is called at tick 5 and allowed; its
    tick removes the actor, [ActorRemoveHook] erases the entry that
    [emplace] had just made and counts it, and the store is empty after
    the call.  When the tick removes nothing the entry is stamped 5. *)
Example scenario_tick_removes_item :
  let s0 := run init_state [EvEnable] in
  let r := ItemActorTickHook_origin s0 true 1 5 [1] in
  let r' := ItemActorTickHook_origin s0 true 1 5 [] in
  r.2 = Allow ∧
  lastItemTick r.1 = ∅ ∧
  totalDespawnCleaned r.1 = 1 ∧
  totalProcessed r.1 = 1 ∧
  r'.2 = Allow ∧
  lastItemTick r'.1 !! 1 = Some 5 ∧
  totalDespawnCleaned r'.1 = 0.
Proof. vm_compute. repeat split; reflexivity. Qed.

(** * Further properties of the hooks *)

(** ** The gate, case by case *)

(** The three ways through [gate]: quota used up; entry present (then
    inside or outside the cooldown); entry absent. *)
Ltac gate_cases s uid t :=
  let Hq := fresh "Hq" in
  let Hl := fresh "Hl" in
  let Hc := fresh "Hc" in
  let T := fresh "T" in
  destruct (Z_le_gt_dec (dynMaxPerTick s) (processedThisTick s)) as [Hq | Hq];
  [ rewrite (gate_throttled s uid t Hq)
  | destruct (lastItemTick s !! uid) as [T |] eqn:Hl;
    [ rewrite (gate_present s uid t T ltac:(lia) Hl);
      destruct (u64_sub t T <? to_u64 (dynCooldownTicks s)) eqn:Hc
    | rewrite (gate_absent s uid t ltac:(lia) Hl) ] ].

(** The decision of [gate] read back as conditions on the state it
    started from. *)
Lemma gate_decision (s : State) (uid t : Z) :
  let d := (gate s uid t).2 in
  (d = DenyThrottle ↔ dynMaxPerTick s <= processedThisTick s) ∧
  (d = DenyCooldown ↔
     processedThisTick s < dynMaxPerTick s ∧
     ∃ T, lastItemTick s !! uid = Some T ∧
          u64_sub t T < to_u64 (dynCooldownTicks s)) ∧
  (d = Allow ↔
     processedThisTick s < dynMaxPerTick s ∧
     (lastItemTick s !! uid = None ∨
      ∃ T, lastItemTick s !! uid = Some T ∧
           to_u64 (dynCooldownTicks s) <= u64_sub t T)) ∧
  d ≠ PassThrough.
Proof.
  intros d. subst d. gate_cases s uid t; simpl.
  - split_and!; [done | | | done]; (split; [done | intros [? _]; lia]).
  - apply Z.ltb_lt in Hc. split_and!; [| | | done].
    + split; [done | lia].
    + split; [| done]. intros _. split; [lia |]. by exists T.
    + split; [done |].
      intros [_ [? | (T' & ? & ?)]]; [congruence | simplify_eq; lia].
  - apply Z.ltb_ge in Hc. split_and!; [| | | done].
    + split; [done | lia].
    + split; [done |]. intros [_ (T' & ? & ?)]. simplify_eq. lia.
    + split; [| done]. intros _. split; [lia |]. right. by exists T.
  - split_and!; [| | | done].
    + split; [done | lia].
    + split; [done |]. intros [_ (T' & ? & ?)]. congruence.
    + split; [| done]. intros _. split; [lia |]. by left.
Qed.

(** X1.  With the feature on, the decision of a gate call for an item is
    fixed by three facts about the state [s0] left by the frame-boundary
    block: [DenyThrottle] exactly when the in-frame counter has reached
    the quota; [DenyCooldown] exactly when the quota is free and the
    entry of the id is younger than the cooldown; [Allow] exactly when
    the quota is free and the id has no entry or one at least as old as
    the cooldown.  It is never [PassThrough]. *)
Theorem hook_decision_iff
    (s : State) (uid currentTick : Z)
    (Henabled : enabled (config s) = true) :
  let s0 := frame_boundary s currentTick in
  let d := (ItemActorTickHook s true uid currentTick).2 in
  (d = DenyThrottle ↔ dynMaxPerTick s <= processedThisTick s0) ∧
  (d = DenyCooldown ↔
     processedThisTick s0 < dynMaxPerTick s ∧
     ∃ T, lastItemTick s0 !! uid = Some T ∧
          u64_sub currentTick T < to_u64 (dynCooldownTicks s)) ∧
  (d = Allow ↔
     processedThisTick s0 < dynMaxPerTick s ∧
     (lastItemTick s0 !! uid = None ∨
      ∃ T, lastItemTick s0 !! uid = Some T ∧
           to_u64 (dynCooldownTicks s) <= u64_sub currentTick T)) ∧
  d ≠ PassThrough.
Proof.
  intros s0 d. subst d. rewrite hook_gate by done. fold s0.
  pose proof (frame_boundary_dyn s currentTick) as [Hd Hc].
  fold s0 in Hd, Hc. rewrite <- Hd, <- Hc.
  apply gate_decision.
Qed.

(** The theorem on [st_tick5_full] (quota 10 used up at tick 5, item 1
    stamped 5): at tick 5 a call is throttled; at tick 6 item 1 is
    cooling down and the unseen item 11 is allowed. *)
Lemma hook_decision_iff_witness :
  (ItemActorTickHook st_tick5_full true 1 5).2 = DenyThrottle ∧
  (ItemActorTickHook st_tick5_full true 1 6).2 = DenyCooldown ∧
  (ItemActorTickHook st_tick5_full true 11 6).2 = Allow.
Proof.
  split; [| split].
  - apply (proj1 (hook_decision_iff st_tick5_full 1 5 eq_refl)).
    vm_compute. discriminate.
  - apply (proj1 (proj2 (hook_decision_iff st_tick5_full 1 6 eq_refl))).
    split; [vm_compute; reflexivity |].
    exists 5. split; [reflexivity | vm_compute; reflexivity].
  - apply (proj1 (proj2 (proj2 (hook_decision_iff st_tick5_full 11 6
                                  eq_refl)))).
    split; [vm_compute; reflexivity |]. left. reflexivity.
Defined.





(** ** Whole frames *)

Lemma frame_run_cons (s : State) (t uid : Z) (rest : list Z) :
  let r := ItemActorTickHook s true uid t in
  (frame_run s t (uid :: rest)).1 = (frame_run r.1 t rest).1 ∧
  (frame_run s t (uid :: rest)).2 = r.2 :: (frame_run r.1 t rest).2.
Proof.
  simpl. destruct (ItemActorTickHook s true uid t) as [s1 d].
  simpl. by destruct (frame_run s1 t rest).
Qed.

(** Inside a frame the in-frame counter never passes the quota. *)
Lemma frame_run_bounded (t : Z) (uids : list Z) :
  ∀ s : State,
    enabled (config s) = true →
    lastTickId s = t →
    int_range (dynMaxPerTick s) →
    0 <= processedThisTick s →
    processedThisTick (frame_run s t uids).1
      <= Z.max (processedThisTick s) (dynMaxPerTick s).
Proof.
  induction uids as [| uid rest IH]; intros s Hen Htick Hdyn Hp.
  - simpl. lia.
  - rewrite (proj1 (frame_run_cons s t uid rest)).
    rewrite hook_gate by done. rewrite frame_boundary_same_tick by done.
    pose proof (gate_effect s uid t) as (Hc & Hl & Hm & _ & _ & Hal & Hot).
    simpl in *.
    assert (Hp1 : processedThisTick s <= processedThisTick (gate s uid t).1
                  <= Z.max (processedThisTick s) (dynMaxPerTick s)).
    { destruct (decide ((gate s uid t).2 = Allow)) as [Ha | Hna].
      - destruct (Hal Ha) as [Hlt ->]. unfold int_add.
        rewrite to_int_id by (unfold int_range, INT_MIN, INT_MAX in *; lia).
        lia.
      - rewrite (Hot Hna). lia. }
    specialize (IH (gate s uid t).1). rewrite Hc, Hl, Hm in IH.
    specialize (IH Hen Htick Hdyn ltac:(lia)). lia.
Qed.

(** X4.  The quota is a hard bound on a frame: in any run of gate calls
    with one [currentTick], started before the frame admitted anything,
    the number of calls allowed is at most [dynMaxPerTick] (none when
    the quota is not positive), whatever the ids and their order. *)
Theorem frame_quota_bound
    (s : State) (currentTick : Z) (calls : list Z)
    (Henabled : enabled (config s) = true)
    (Hquota : int_range (dynMaxPerTick s))
    (Hfresh : currentTick ≠ lastTickId s ∨ processedThisTick s = 0) :
  Z.of_nat (count_allow (frame_run s currentTick calls).2)
    <= Z.max 0 (dynMaxPerTick s).
Proof.
  destruct calls as [| uid rest]; [unfold count_allow; simpl; lia |].
  rewrite frame_run_opens by done.
  set (s0 := frame_boundary s currentTick).
  assert (Hp0 : processedThisTick s0 = 0).
  { unfold s0. rewrite frame_boundary_processed.
    destruct (currentTick =? lastTickId s) eqn:E; [| done].
    apply Z.eqb_eq in E. by destruct Hfresh. }
  pose proof (frame_boundary_dyn s currentTick) as [Hd0 _]. fold s0 in Hd0.
  assert (Hen0 : enabled (config s0) = true)
    by (unfold s0; by rewrite frame_boundary_config).
  assert (Ht0 : lastTickId s0 = currentTick)
    by apply frame_boundary_lastTickId.
  pose proof (frame_run_in_frame currentTick (uid :: rest) s0 Hen0 Ht0
                ltac:(by rewrite Hd0) ltac:(lia)) as (_ & _ & _ & Hcount).
  pose proof (frame_run_bounded currentTick (uid :: rest) s0 Hen0 Ht0
                ltac:(by rewrite Hd0) ltac:(lia)) as Hb.
  rewrite Hd0, Hp0 in *. lia.
Qed.

(** The theorem on [st_step1] (quota 10): of twelve calls at tick 5 at
    most ten are allowed. *)
Lemma frame_quota_bound_witness :
  Z.of_nat (count_allow
    (frame_run st_step1 5 [1; 2; 3; 4; 5; 6; 7; 8; 9; 10; 11; 12]).2)
    <= Z.max 0 10.
Proof.
  apply (frame_quota_bound st_step1 5
           [1; 2; 3; 4; 5; 6; 7; 8; 9; 10; 11; 12]).
  - reflexivity.
  - vm_compute. split; discriminate.
  - left. vm_compute. discriminate.
Defined.

(** Distinct ids without an entry, inside a frame: the first
    [dynMaxPerTick - processedThisTick] are allowed, the others
    throttled. *)
Lemma fresh_ids_in_frame (t : Z) (uids : list Z) :
  ∀ s : State,
    enabled (config s) = true →
    lastTickId s = t →
    int_range (dynMaxPerTick s) →
    0 <= processedThisTick s →
    NoDup uids →
    Forall (λ u, lastItemTick s !! u = None) uids →
    let k := Z.to_nat (dynMaxPerTick s - processedThisTick s) in
    (frame_run s t uids).2 =
      replicate (k `min` length uids) Allow
      ++ replicate (length uids - k) DenyThrottle.
Proof.
  induction uids as [| uid rest IH]; intros s Hen Htick Hdyn Hp Hnd Habs k.
  - simpl. by rewrite Nat.min_0_r.
  - rewrite (proj2 (frame_run_cons s t uid rest)).
    rewrite hook_gate by done. rewrite frame_boundary_same_tick by done.
    apply NoDup_cons in Hnd as [Hnotin Hnd].
    apply Forall_cons in Habs as [Huid Habs].
    destruct (Z_le_gt_dec (dynMaxPerTick s) (processedThisTick s))
      as [Hq | Hq].
    + rewrite (gate_throttled s uid t Hq). simpl.
      specialize (IH (with_totalThrottleSkipped s
                        (u64_incr (totalThrottleSkipped s)))
                     Hen Htick Hdyn Hp Hnd Habs).
      simpl in IH. rewrite IH. subst k.
      replace (Z.to_nat (dynMaxPerTick s - processedThisTick s))
        with 0%nat by lia.
      simpl. by rewrite Nat.sub_0_r.
    + rewrite (gate_absent s uid t ltac:(lia) Huid). simpl.
      assert (Hinc : int_add (processedThisTick s) 1
                     = processedThisTick s + 1).
      { unfold int_add. apply to_int_id.
        unfold int_range, INT_MIN, INT_MAX in *. lia. }
      rewrite Hinc.
      match goal with
      | |- context [frame_run ?s1 t rest] => specialize (IH s1)
      end.
      simpl in IH. rewrite IH; try done; try lia.
      * subst k.
        replace (Z.to_nat (dynMaxPerTick s - processedThisTick s))
          with (S (Z.to_nat (dynMaxPerTick s - (processedThisTick s + 1))))
          by lia.
        reflexivity.
      * apply Forall_forall. intros u Hu.
        rewrite lookup_insert_ne by (intros ->; done).
        by eapply Forall_forall in Habs.
Qed.

(** X5.  A frame of [n] distinct ids none of which has an entry, with a
    quota [q >= 0]: the first [min q n] calls are allowed and the
    remaining [n - q] are throttled; no call is a cooldown denial. *)
Theorem fresh_ids_frame
    (s : State) (currentTick : Z) (uids : list Z)
    (Henabled : enabled (config s) = true)
    (Hquota : int_range (dynMaxPerTick s))
    (Hfresh : currentTick ≠ lastTickId s ∨ processedThisTick s = 0)
    (Hdistinct : NoDup uids)
    (Habsent : Forall (λ u, lastItemTick s !! u = None) uids) :
  let q := Z.to_nat (dynMaxPerTick s) in
  (frame_run s currentTick uids).2 =
    replicate (q `min` length uids) Allow
    ++ replicate (length uids - q) DenyThrottle.
Proof.
  intros q. destruct uids as [| uid rest].
  { simpl. by rewrite Nat.min_0_r. }
  rewrite frame_run_opens by done.
  set (s0 := frame_boundary s currentTick).
  assert (Hp0 : processedThisTick s0 = 0).
  { unfold s0. rewrite frame_boundary_processed.
    destruct (currentTick =? lastTickId s) eqn:E; [| done].
    apply Z.eqb_eq in E. by destruct Hfresh. }
  pose proof (frame_boundary_dyn s currentTick) as [Hd0 _]. fold s0 in Hd0.
  pose proof (fresh_ids_in_frame currentTick (uid :: rest) s0) as H.
  cbv zeta in H. rewrite Hd0, Hp0, Z.sub_0_r in H. apply H; try done.
  - unfold s0. by rewrite frame_boundary_config.
  - apply frame_boundary_lastTickId.
  - eapply Forall_impl; [exact Habsent |]. intros u Hu.
    by apply frame_boundary_absent.
Qed.

(** The theorem on [st_step1] (quota 10): of twelve new items at tick 5
    the first ten are allowed and the last two throttled. *)
Lemma fresh_ids_frame_witness :
  (frame_run st_step1 5 [1; 2; 3; 4; 5; 6; 7; 8; 9; 10; 11; 12]).2 =
    replicate 10 Allow ++ replicate 2 DenyThrottle.
Proof.
  apply (fresh_ids_frame st_step1 5
           [1; 2; 3; 4; 5; 6; 7; 8; 9; 10; 11; 12]).
  - reflexivity.
  - vm_compute. split; discriminate.
  - left. vm_compute. discriminate.
  - apply (bool_decide_unpack _). vm_compute. exact I.
  - repeat constructor.
Defined.

(** ** The feature flag *)

(** X6.  With [config.enabled] off the four hooks are inert: the item
    hook passes through, and neither it nor the level hook nor the two
    lifecycle hooks change anything of the state: no counter, no store
    entry, no controller value. *)
Theorem hooks_inert_when_disabled
    (s : State)
    (Hoff : enabled (config s) = false) :
  (∀ is_item uid currentTick,
     ItemActorTickHook s is_item uid currentTick = (s, PassThrough)) ∧
  (∀ elapsed, LevelTickHook s elapsed = s) ∧
  (∀ uid, ActorDespawnHook s uid = s) ∧
  (∀ uid, ActorRemoveHook s uid = s).
Proof.
  unfold ItemActorTickHook, LevelTickHook, ActorDespawnHook,
    ActorRemoveHook.
  rewrite Hoff. simpl. done.
Qed.

(** The theorem on [st_disabled], whose store holds item 1 stamped 5:
    the item is neither cooled down against nor erased. *)
Lemma hooks_inert_when_disabled_witness :
  lastItemTick st_disabled !! 1 = Some 5 ∧
  ItemActorTickHook st_disabled true 1 5 = (st_disabled, PassThrough) ∧
  ActorDespawnHook st_disabled 1 = st_disabled.
Proof.
  pose proof (hooks_inert_when_disabled st_disabled eq_refl)
    as (Hitem & _ & Hdespawn & _).
  split; [reflexivity |].
  exact (conj (Hitem true 1 5) (Hdespawn 1)).
Defined.

(** ** The lifecycle hooks *)

(** X7.  With the feature on, [ActorDespawnHook] (and [ActorRemoveHook],
    which has the same body) erases the entry of its actor and no other;
    it increments the despawn counter exactly when there was an entry,
    and changes nothing else. *)
Theorem despawn_erases_entry
    (s : State) (uid : Z)
    (Henabled : enabled (config s) = true) :
  let s' := ActorDespawnHook s uid in
  ActorRemoveHook s uid = s' ∧
  lastItemTick s' !! uid = None ∧
  (∀ k, k ≠ uid → lastItemTick s' !! k = lastItemTick s !! k) ∧
  totalDespawnCleaned s' =
    (if lastItemTick s !! uid is Some _
     then u64_incr (totalDespawnCleaned s) else totalDespawnCleaned s) ∧
  s' = with_totalDespawnCleaned
         (with_lastItemTick s (delete uid (lastItemTick s)))
         (totalDespawnCleaned s').
Proof.
  intros s'. subst s'. split; [done |].
  unfold ActorDespawnHook, erase. rewrite Henabled.
  destruct (lastItemTick s !! uid) as [T |] eqn:Hl; simpl.
  - split; [apply lookup_delete_eq |]. split; [| done].
    intros k Hk. by apply lookup_delete_ne.
  - split; [done |]. split; [done |]. split; [done |].
    rewrite delete_id by done. by destruct s.
Qed.

Lemma despawn_erases_entry_witness :
  lastItemTick st_tick5_full !! 1 = Some 5 ∧
  lastItemTick (ActorDespawnHook st_tick5_full 1) !! 1 = None ∧
  lastItemTick (ActorDespawnHook st_tick5_full 1) !! 2 = Some 5 ∧
  totalDespawnCleaned (ActorDespawnHook st_tick5_full 1) = 1.
Proof.
  pose proof (despawn_erases_entry st_tick5_full 1 eq_refl)
    as (_ & Hgone & Hother & Hcount & _).
  split; [reflexivity |]. split; [exact Hgone |].
  split; [rewrite Hother by lia; reflexivity | exact Hcount].
Defined.

(** X8.  The lifecycle hooks are idempotent: a second despawn or remove
    of the same actor, in either order, finds no entry and changes
    nothing, the despawn counter included. *)
Theorem despawn_idempotent (s : State) (uid : Z) :
  ActorDespawnHook (ActorDespawnHook s uid) uid = ActorDespawnHook s uid ∧
  ActorRemoveHook (ActorDespawnHook s uid) uid = ActorDespawnHook s uid ∧
  ActorDespawnHook (ActorRemoveHook s uid) uid = ActorRemoveHook s uid ∧
  ActorRemoveHook (ActorRemoveHook s uid) uid = ActorRemoveHook s uid.
Proof.
  assert (H : ActorDespawnHook (ActorDespawnHook s uid) uid
              = ActorDespawnHook s uid).
  { destruct (enabled (config s)) eqn:Hen.
    - pose proof (ActorDespawnHook_effect s uid Hen) as (Hl & Hc & _).
      assert (Habs : lastItemTick (ActorDespawnHook s uid) !! uid = None)
        by (rewrite Hl; apply lookup_delete_eq).
      unfold ActorDespawnHook at 1. rewrite Hc, Hen. unfold erase.
      rewrite Habs. simpl. by destruct (ActorDespawnHook s uid).
    - unfold ActorDespawnHook. rewrite Hen. by rewrite Hen. }
  repeat split; exact H.
Qed.

(** ** [enable] and [disable] *)

(** X9.  [enable] and [disable] are idempotent, and [enable] leaves the
    store, the frame state and the counters alone: calling it on a
    running optimizer only recomputes the quota and the cooldown from
    the configured steps (dropping what the controller had reached). *)
Theorem lifecycle_idempotent (s : State) :
  enable (enable s).1 = enable s ∧
  disable (disable s).1 = disable s ∧
  lastItemTick (enable s).1 = lastItemTick s ∧
  processedThisTick (enable s).1 = processedThisTick s ∧
  lastTickId (enable s).1 = lastTickId s ∧
  cleanupCounter (enable s).1 = cleanupCounter s ∧
  (enable s).1
    = with_debugTaskRunning
        (with_dyn s (dynMaxPerTick (enable s).1)
                    (dynCooldownTicks (enable s).1))
        (debugTaskRunning (enable s).1).
Proof.
  destruct s as [c run m p l cc q cd tp tc tt td te].
  unfold enable, disable, startDebugTask. simpl.
  destruct (debug c) eqn:Hd; simpl; rewrite ?Hd;
    destruct run; simpl; rewrite ?Hd; simpl; done.
Qed.

(** ** The counters do not steer anything *)

Lemma frame_boundary_resetStats (s : State) (t : Z) :
  resetStats (frame_boundary (resetStats s) t)
    = resetStats (frame_boundary s t).
Proof.
  unfold frame_boundary. simpl.
  destruct (t =? lastTickId s); [done |]. simpl.
  destruct (_ <=? _); [| done]. simpl.
  by rewrite !sweep_spec.
Qed.

Lemma gate_resetStats (s1 s2 : State) (uid t : Z) :
  resetStats s1 = resetStats s2 →
  (gate s1 uid t).2 = (gate s2 uid t).2 ∧
  resetStats (gate s1 uid t).1 = resetStats (gate s2 uid t).1.
Proof.
  destruct s1 as [c1 r1 m1 p1 l1 cc1 q1 cd1 tp1 tc1 tt1 td1 te1].
  destruct s2 as [c2 r2 m2 p2 l2 cc2 q2 cd2 tp2 tc2 tt2 td2 te2].
  unfold resetStats. simpl. intros [= -> -> -> -> -> -> -> ->].
  unfold gate, emplace. simpl.
  destruct (q2 <=? p2); [done |].
  destruct (m2 !! uid) as [T |]; simpl; [| done].
  by destruct (u64_sub t T <? to_u64 cd2).
Qed.

Ltac split_ifs :=
  repeat (match goal with
          | |- context [if ?b then _ else _] => destruct b
          end; simpl).

Lemma step_resetStats (s1 s2 : State) (e : Event) :
  same_core s1 s2 → same_core (step s1 e) (step s2 e).
Proof.
  unfold same_core. intros Hs.
  destruct e as [parsed loaded | | | is_item uid t | elapsed | uid | uid |].
  - destruct s1, s2. unfold resetStats in Hs. simpl in Hs.
    inversion Hs; subst; clear Hs. done.
  - destruct s1, s2. unfold resetStats in Hs. simpl in Hs.
    inversion Hs; subst; clear Hs.
    unfold step, enable, startDebugTask. simpl. by split_ifs.
  - destruct s1, s2. unfold resetStats in Hs. simpl in Hs.
    inversion Hs; subst; clear Hs.
    done.
  - assert (Hc : config s1 = config s2)
      by (destruct s1, s2; unfold resetStats in Hs; simpl in Hs;
          by inversion Hs).
    simpl. unfold ItemActorTickHook. rewrite Hc.
    destruct (negb (enabled (config s2)) || negb is_item); [done |].
    apply gate_resetStats.
    rewrite <- (frame_boundary_resetStats s1),
      <- (frame_boundary_resetStats s2).
    by rewrite Hs.
  - destruct s1, s2. unfold resetStats in Hs. simpl in Hs.
    inversion Hs; subst; clear Hs.
    unfold step, LevelTickHook. simpl. by split_ifs.
  - destruct s1, s2. unfold resetStats in Hs. simpl in Hs.
    inversion Hs; subst; clear Hs.
    unfold step, ActorDespawnHook, erase. simpl.
    destruct (enabled _); [| done]. by destruct (_ !! uid).
  - destruct s1, s2. unfold resetStats in Hs. simpl in Hs.
    inversion Hs; subst; clear Hs.
    unfold step, ActorRemoveHook, erase. simpl.
    destruct (enabled _); [| done]. by destruct (_ !! uid).
  - destruct s1, s2. unfold resetStats in Hs. simpl in Hs.
    inversion Hs; subst; clear Hs.
    unfold step, debugReport. simpl. by split_ifs.
Qed.

(** X10.  The telemetry counters never steer the optimizer.  Two states
    that differ in their counters only still differ in their counters
    only after any sequence of events, and every gate call returns the
    same decision in both.  In particular the periodic report, which
    resets the counters, can run between any two hook calls without
    changing a later decision, the store or the controller state. *)
Theorem counters_do_not_steer
    (s1 s2 : State) (es : list Event)
    (Hsame : same_core s1 s2) :
  same_core (run s1 es) (run s2 es) ∧
  (∀ is_item uid currentTick,
     (ItemActorTickHook (run s1 es) is_item uid currentTick).2
       = (ItemActorTickHook (run s2 es) is_item uid currentTick).2) ∧
  same_core (run (debugReport s1) es) (run s1 es).
Proof.
  assert (Hrun : ∀ es a b, same_core a b → same_core (run a es) (run b es)).
  { clear. induction es as [| e es IH]; intros a b Hab; [done |].
    simpl. apply IH. by apply step_resetStats. }
  assert (Hdec : ∀ a b is_item uid t, same_core a b →
            (ItemActorTickHook a is_item uid t).2
              = (ItemActorTickHook b is_item uid t).2).
  { clear. intros a b is_item uid t Hab.
    assert (Hc : config a = config b)
      by (destruct a, b; unfold same_core, resetStats in Hab; simpl in Hab;
          by inversion Hab).
    unfold ItemActorTickHook. rewrite Hc.
    destruct (negb (enabled (config b)) || negb is_item); [done |].
    apply gate_resetStats.
    rewrite <- (frame_boundary_resetStats a),
      <- (frame_boundary_resetStats b).
    by rewrite Hab. }
  split; [by apply Hrun |]. split.
  - intros. apply Hdec. by apply Hrun.
  - apply Hrun. unfold same_core, debugReport.
    by destruct (negb (debug (config s1))).
Qed.

(** The theorem on [st_tick5_full] and the same state with its counters
    reset: after a despawn and a level tick, the gate decides alike. *)
Lemma counters_do_not_steer_witness :
  totalProcessed st_tick5_full = 10 ∧
  (ItemActorTickHook
     (run (resetStats st_tick5_full) [EvDespawn 2; EvLevelTick 60])
     true 1 6).2
  = (ItemActorTickHook
       (run st_tick5_full [EvDespawn 2; EvLevelTick 60]) true 1 6).2.
Proof.
  split; [reflexivity |].
  apply (counters_do_not_steer (resetStats st_tick5_full) st_tick5_full
           [EvDespawn 2; EvLevelTick 60]).
  reflexivity.
Defined.

(** ** More on [loadConfig] *)

(** X11.  [loadConfig] changes nothing of a configuration whose five
    checked fields are at least 1 and whose capacity hint is not 0, and
    it hands on what the host parser reported.  Besides the
    configuration it writes nothing: the store, the controller state
    and the counters stay. *)
Theorem loadConfig_keeps_valid
    (s : State) (parsed : Config) (loaded : bool)
    (Hvalid : config_valid parsed) :
  loadConfig s parsed loaded = (with_config s parsed, loaded).
Proof.
  destruct Hvalid as (H1 & H2 & H3 & H4 & H5 & H6).
  destruct parsed as [v en db tt ms cs ci me ir]. simpl in *.
  unfold loadConfig. cbv zeta.
  rewrite check_cleanupIntervalTicks_mk, check_maxExpiredAge_mk,
    check_initialMapReserve_mk, check_maxPerTickStep_mk,
    check_cooldownTicksStep_mk, check_targetTickMs_mk.
  destruct (ci <? 1) eqn:E1; [lia |].
  destruct (me <? 1) eqn:E2; [lia |].
  destruct (ir =? 0) eqn:E3; [lia |].
  destruct (ms <? 1) eqn:E4; [lia |].
  destruct (cs <? 1) eqn:E5; [lia |].
  destruct (tt <? 1) eqn:E6; [lia |].
  done.
Qed.

Lemma loadConfig_keeps_valid_witness :
  loadConfig init_state cfg_step50 true
    = (with_config init_state cfg_step50, true).
Proof.
  apply loadConfig_keeps_valid.
  unfold config_valid. simpl. lia.
Defined.

(** X12.  The checks reach a fixed point in one pass: loading the
    configuration that [loadConfig] produced (what [saveConfig] writes
    back after a failed load) gives that configuration again, and it is
    accepted by every check. *)
Theorem loadConfig_idempotent
    (s s' : State) (parsed : Config) (loaded loaded' : bool) :
  let c := config (loadConfig s parsed loaded).1 in
  config_valid c ∧
  config (loadConfig s' c loaded').1 = c.
Proof.
  intros c.
  assert (Hv : config_valid c).
  { subst c. unfold config_valid.
    pose proof (loadConfig_fields s parsed loaded) as H. cbv zeta in H.
    destruct H as (_ & -> & -> & -> & -> & -> & -> & _).
    repeat split.
    - destruct (_ <? 1) eqn:E; [lia | apply Z.ltb_ge in E; lia].
    - destruct (_ <? 1) eqn:E; [lia | apply Z.ltb_ge in E; lia].
    - destruct (_ =? 0) eqn:E; [lia | apply Z.eqb_neq in E; lia].
    - destruct (_ <? 1) eqn:E; [lia | apply Z.ltb_ge in E; lia].
    - destruct (_ <? 1) eqn:E; [lia | apply Z.ltb_ge in E; lia].
    - destruct (_ <? 1) eqn:E; [lia | apply Z.ltb_ge in E; lia]. }
  split; [done |].
  destruct c as [v en db tt ms cs ci me ir] eqn:Ec.
  destruct Hv as (H1 & H2 & H3 & H4 & H5 & H6). simpl in *.
  unfold loadConfig. cbv zeta.
  rewrite check_cleanupIntervalTicks_mk, check_maxExpiredAge_mk,
    check_initialMapReserve_mk, check_maxPerTickStep_mk,
    check_cooldownTicksStep_mk, check_targetTickMs_mk.
  destruct (ci <? 1) eqn:E1; [lia |].
  destruct (me <? 1) eqn:E2; [lia |].
  destruct (ir =? 0) eqn:E3; [lia |].
  destruct (ms <? 1) eqn:E4; [lia |].
  destruct (cs <? 1) eqn:E5; [lia |].
  destruct (tt <? 1) eqn:E6; [lia |].
  done.
Qed.

(** ** The controller over many frames *)

Section ControllerSteps.

Variable s : State.
Hypothesis Henabled : enabled (config s) = true.

Lemma LevelTickHook_config (elapsed : Z) :
  config (LevelTickHook s elapsed) = config s.
Proof.
  unfold LevelTickHook. destruct (negb _); [done |]. by destruct (_ <? _).
Qed.

Lemma LevelTickHook_over (elapsed : Z) :
  targetTickMs (config s) < elapsed →
  int_range (dynMaxPerTick s - maxPerTickStep (config s)) →
  int_range (dynCooldownTicks s + cooldownTicksStep (config s)) →
  dynMaxPerTick (LevelTickHook s elapsed)
    = Z.max 8 (dynMaxPerTick s - maxPerTickStep (config s)) ∧
  dynCooldownTicks (LevelTickHook s elapsed)
    = Z.min 10 (dynCooldownTicks s + cooldownTicksStep (config s)).
Proof.
  intros Hover Hq Hc. unfold LevelTickHook. rewrite Henabled. simpl.
  destruct (_ <? _) eqn:E; [| lia]. simpl.
  unfold int_sub, int_add. by rewrite !to_int_id.
Qed.

Lemma LevelTickHook_under (elapsed : Z) :
  elapsed <= targetTickMs (config s) →
  int_range (dynMaxPerTick s + maxPerTickStep (config s)) →
  int_range (dynCooldownTicks s - cooldownTicksStep (config s)) →
  dynMaxPerTick (LevelTickHook s elapsed)
    = Z.min 200 (dynMaxPerTick s + maxPerTickStep (config s)) ∧
  dynCooldownTicks (LevelTickHook s elapsed)
    = Z.max 1 (dynCooldownTicks s - cooldownTicksStep (config s)).
Proof.
  intros Hunder Hq Hc. unfold LevelTickHook. rewrite Henabled. simpl.
  destruct (_ <? _) eqn:E; [lia |]. simpl.
  unfold int_sub, int_add. by rewrite !to_int_id.
Qed.

End ControllerSteps.

(** X13.  Frames that are all over budget: after [n] of them the quota
    is [max 8 (quota - n * step)] and the cooldown
    [min 10 (cooldown + n * step)].  So the quota falls by the step each
    frame until it reaches 8, the cooldown rises until it reaches 10,
    and both then stay.  The start is any state with a quota of at
    least 8 and a cooldown of at most 10; the steps are at least 1. *)
Theorem over_budget_frames
    (s : State) (elapsed : list Z)
    (Henabled : enabled (config s) = true)
    (Hover : Forall (λ e, targetTickMs (config s) < e) elapsed)
    (Hsteps : 1 <= maxPerTickStep (config s) <= INT_MAX - 200 ∧
              1 <= cooldownTicksStep (config s) <= INT_MAX - 200)
    (Hquota : 8 <= dynMaxPerTick s <= INT_MAX)
    (Hcooldown : INT_MIN <= dynCooldownTicks s <= 10) :
  let n := Z.of_nat (length elapsed) in
  let s' := frame_ends s elapsed in
  dynMaxPerTick s'
    = Z.max 8 (dynMaxPerTick s - n * maxPerTickStep (config s)) ∧
  dynCooldownTicks s'
    = Z.min 10 (dynCooldownTicks s + n * cooldownTicksStep (config s)) ∧
  (dynMaxPerTick s - 8 <= n * maxPerTickStep (config s) →
     dynMaxPerTick s' = 8) ∧
  (10 - dynCooldownTicks s <= n * cooldownTicksStep (config s) →
     dynCooldownTicks s' = 10) ∧
  dynMaxPerTick s' <= dynMaxPerTick s ∧
  dynCooldownTicks s <= dynCooldownTicks s'.
Proof.
  intros n s'. subst n s'.
  enough (H : dynMaxPerTick (frame_ends s elapsed)
                = Z.max 8 (dynMaxPerTick s
                           - Z.of_nat (length elapsed)
                             * maxPerTickStep (config s)) ∧
              dynCooldownTicks (frame_ends s elapsed)
                = Z.min 10 (dynCooldownTicks s
                            + Z.of_nat (length elapsed)
                              * cooldownTicksStep (config s))).
  { destruct H as [-> ->]. destruct Hsteps as [? ?].
    repeat split; try nia; intros; nia. }
  revert s Henabled Hover Hsteps Hquota Hcooldown.
  induction elapsed as [| e rest IH];
    intros s Hen Hover [Hst Hcs] Hq Hc.
  - simpl. lia.
  - apply Forall_cons in Hover as [He Hrest].
    unfold INT_MIN, INT_MAX in *.
    destruct (LevelTickHook_over s Hen e He) as [Hq1 Hc1];
      [unfold int_range, INT_MIN, INT_MAX; lia ..|].
    pose proof (LevelTickHook_config s e) as Hcfg.
    specialize (IH (LevelTickHook s e)).
    rewrite Hcfg, Hq1, Hc1 in IH.
    change (frame_ends s (e :: rest))
      with (frame_ends (LevelTickHook s e) rest).
    destruct IH as [-> ->]; try done; try lia.
    rewrite length_cons, Nat2Z.inj_succ. nia.
Qed.

(** The theorem on [st_step1] (quota 10, cooldown 2, steps 1, target
    50): after three frames of 60 ms the quota is at its floor 8. *)
Lemma over_budget_frames_witness :
  dynMaxPerTick (frame_ends st_step1 [60; 60; 60]) = 8 ∧
  dynCooldownTicks (frame_ends st_step1 [60; 60; 60])
    = Z.min 10 (2 + 3 * 1).
Proof.
  destruct (over_budget_frames st_step1 [60; 60; 60])
    as (_ & Hc & Hq & _).
  - reflexivity.
  - repeat constructor.
  - vm_compute. repeat split; discriminate.
  - vm_compute. split; discriminate.
  - vm_compute. split; discriminate.
  - split; [apply Hq; vm_compute; discriminate | exact Hc].
Defined.

(** X14.  Frames that are all within budget: after [n] of them the
    quota is [min 200 (quota + n * step)] and the cooldown
    [max 1 (cooldown - n * step)]; the quota rises to 200, the cooldown
    falls to 1, and both then stay.  The start is any state with a
    quota of at most 200 and a cooldown of at least 1. *)
Theorem within_budget_frames
    (s : State) (elapsed : list Z)
    (Henabled : enabled (config s) = true)
    (Hunder : Forall (λ e, e <= targetTickMs (config s)) elapsed)
    (Hsteps : 1 <= maxPerTickStep (config s) <= INT_MAX - 200 ∧
              1 <= cooldownTicksStep (config s) <= INT_MAX - 200)
    (Hquota : INT_MIN <= dynMaxPerTick s <= 200)
    (Hcooldown : 1 <= dynCooldownTicks s <= INT_MAX) :
  let n := Z.of_nat (length elapsed) in
  let s' := frame_ends s elapsed in
  dynMaxPerTick s'
    = Z.min 200 (dynMaxPerTick s + n * maxPerTickStep (config s)) ∧
  dynCooldownTicks s'
    = Z.max 1 (dynCooldownTicks s - n * cooldownTicksStep (config s)) ∧
  (200 - dynMaxPerTick s <= n * maxPerTickStep (config s) →
     dynMaxPerTick s' = 200) ∧
  (dynCooldownTicks s - 1 <= n * cooldownTicksStep (config s) →
     dynCooldownTicks s' = 1) ∧
  dynMaxPerTick s <= dynMaxPerTick s' ∧
  dynCooldownTicks s' <= dynCooldownTicks s.
Proof.
  intros n s'. subst n s'.
  enough (H : dynMaxPerTick (frame_ends s elapsed)
                = Z.min 200 (dynMaxPerTick s
                             + Z.of_nat (length elapsed)
                               * maxPerTickStep (config s)) ∧
              dynCooldownTicks (frame_ends s elapsed)
                = Z.max 1 (dynCooldownTicks s
                           - Z.of_nat (length elapsed)
                             * cooldownTicksStep (config s))).
  { destruct H as [-> ->]. destruct Hsteps as [? ?].
    repeat split; try nia; intros; nia. }
  revert s Henabled Hunder Hsteps Hquota Hcooldown.
  induction elapsed as [| e rest IH];
    intros s Hen Hunder [Hst Hcs] Hq Hc.
  - simpl. lia.
  - apply Forall_cons in Hunder as [He Hrest].
    unfold INT_MIN, INT_MAX in *.
    destruct (LevelTickHook_under s Hen e He) as [Hq1 Hc1];
      [unfold int_range, INT_MIN, INT_MAX; lia ..|].
    pose proof (LevelTickHook_config s e) as Hcfg.
    specialize (IH (LevelTickHook s e)).
    rewrite Hcfg, Hq1, Hc1 in IH.
    change (frame_ends s (e :: rest))
      with (frame_ends (LevelTickHook s e) rest).
    destruct IH as [-> ->]; try done; try lia.
    rewrite length_cons, Nat2Z.inj_succ. nia.
Qed.

(** The theorem on [st_step1]: after three frames of 40 ms the quota is
    13 and the cooldown at its floor 1. *)
Lemma within_budget_frames_witness :
  dynMaxPerTick (frame_ends st_step1 [40; 40; 40]) = Z.min 200 (10 + 3 * 1) ∧
  dynCooldownTicks (frame_ends st_step1 [40; 40; 40]) = 1.
Proof.
  destruct (within_budget_frames st_step1 [40; 40; 40])
    as (Hq & _ & _ & Hc & _).
  - reflexivity.
  - repeat constructor; vm_compute; discriminate.
  - vm_compute. repeat split; discriminate.
  - vm_compute. split; discriminate.
  - vm_compute. split; discriminate.
  - split; [exact Hq | apply Hc; vm_compute; discriminate].
Defined.

(** X15.  As long as no configuration with a quota step above 20 or a
    cooldown step above 5 is loaded, the controller state stays within
    its bounds all along: after every prefix of the trace, whatever the
    events, the quota is in [8, 200] and the cooldown in [1, 10], and
    the steps in force are in [1, 20] and [1, 5]. *)
Theorem dyn_in_range_along_trace
    (es : list Event) (n : nat)
    (Hloads : Forall load_small es) :
  dyn_in_range (run init_state (take n es)) ∧
  steps_small (config (run init_state (take n es))).
Proof.
  assert (Htake : Forall load_small (take n es)) by by apply Forall_take.
  revert Htake. generalize (take n es). clear. intros es Hes.
  enough (H : ∀ s, dyn_in_range s ∧ steps_small (config s) →
                   dyn_in_range (run s es) ∧ steps_small (config (run s es))).
  { apply H. unfold dyn_in_range, steps_small. simpl. lia. }
  induction Hes as [| e es He _ IH]; intros s Hs; [done |].
  simpl. apply IH. by apply step_dyn_in_range.
Qed.

(** The theorem on a trace with steps 1: [enable], an over-budget and an
    in-budget frame end, a gate call. *)
Lemma dyn_in_range_along_trace_witness :
  dyn_in_range
    (run init_state
       (take 4 [EvLoad cfg_step1 true; EvEnable; EvLevelTick 60;
                EvLevelTick 40; EvItemTick true 1 5])).
Proof.
  apply dyn_in_range_along_trace.
  repeat constructor; simpl; lia.
Defined.

(** ** More on the sweep *)

(** X16.  A sweep leaves nothing for a second sweep with the same
    [currentTick] and [maxAge]: the second pass erases no entry and does
    not move the counter.  On an empty store a sweep does nothing. *)
Theorem sweep_twice
    (currentTick maxAge : Z) (m : gmap Z Z) (cleaned cleaned' : Z) :
  sweep currentTick maxAge (sweep currentTick maxAge m cleaned).1 cleaned'
    = ((sweep currentTick maxAge m cleaned).1, cleaned') ∧
  sweep currentTick maxAge ∅ cleaned = (∅, cleaned).
Proof.
  split.
  - rewrite !sweep_spec. simpl.
    assert (Hfresh :
      filter (is_fresh currentTick maxAge)
        (filter (is_fresh currentTick maxAge) m)
      = filter (is_fresh currentTick maxAge) m).
    { apply map_filter_id. intros k v Hk.
      by apply map_lookup_filter_Some in Hk as [_ ?]. }
    assert (Hnone :
      filter (is_expired currentTick maxAge)
        (filter (is_fresh currentTick maxAge) m) = ∅).
    { apply map_eq. intros k. rewrite lookup_empty.
      apply map_lookup_filter_None. right. intros v Hk.
      apply map_lookup_filter_Some in Hk as [_ Hf].
      unfold is_fresh, is_expired in *. simpl in *. congruence. }
    by rewrite Hfresh, Hnone, map_size_empty.
  - rewrite sweep_spec, !map_filter_empty, map_size_empty. done.
Qed.

(** ** The cadence of the sweep *)

Lemma gate_cleanupCounter (s : State) (uid t : Z) :
  cleanupCounter (gate s uid t).1 = cleanupCounter s.
Proof. by gate_cases s uid t. Qed.

(** The cadence counter after one call of the item hook. *)
Lemma hook_cleanupCounter (s : State) (uid t : Z) :
  enabled (config s) = true →
  0 <= cleanupCounter s < cleanupIntervalTicks (config s) →
  cleanupIntervalTicks (config s) <= INT_MAX →
  let s' := (ItemActorTickHook s true uid t).1 in
  config s' = config s ∧ lastTickId s' = t ∧
  cleanupCounter s' =
    (cleanupCounter s + (if t =? lastTickId s then 0 else 1))
      mod cleanupIntervalTicks (config s).
Proof.
  intros Hen Hcc Hn s'. subst s'. rewrite hook_gate by done.
  pose proof (gate_effect (frame_boundary s t) uid t) as (Hc & Hl & _).
  simpl in Hc, Hl.
  rewrite Hc, Hl, gate_cleanupCounter, frame_boundary_config,
    frame_boundary_lastTickId.
  split; [done |]. split; [done |].
  unfold frame_boundary. destruct (t =? lastTickId s).
  - rewrite Z.add_0_r, Z.mod_small; done.
  - simpl. unfold int_add.
    rewrite to_int_id by (unfold int_range, INT_MIN, INT_MAX in *; lia).
    destruct (_ <=? _) eqn:E; simpl.
    + apply Z.leb_le in E.
      assert (cleanupCounter s + 1 = cleanupIntervalTicks (config s))
        as -> by lia.
      by rewrite Z_mod_same_full.
    + apply Z.leb_gt in E. rewrite Z.mod_small; lia.
Qed.

(** X17.  The sweep cadence counts frames, not calls.  Starting with a
    counter [c] below [cleanupIntervalTicks = n], after any sequence of
    gate calls the counter is [(c + f) mod n], where [f] is the number
    of calls whose tick differs from the tick of the call before (the
    frames opened).  So a sweep runs at every [n]-th new tick, and 
    calls at an unchanged tick never advance the cadence. *)
Theorem sweep_cadence
    (s : State) (calls : list (Z * Z))
    (Henabled : enabled (config s) = true)
    (Hcounter : 0 <= cleanupCounter s < cleanupIntervalTicks (config s))
    (Hinterval : cleanupIntervalTicks (config s) <= INT_MAX) :
  cleanupCounter (item_ticks s calls) =
    (cleanupCounter s
     + Z.of_nat (tick_changes (lastTickId s) calls.*2))
      mod cleanupIntervalTicks (config s).
Proof.
  revert s Henabled Hcounter Hinterval.
  induction calls as [| [uid t] rest IH]; intros s Hen Hcc Hn.
  - simpl. rewrite Z.add_0_r, Z.mod_small; done.
  - pose proof (hook_cleanupCounter s uid t Hen Hcc Hn) as (Hc & Hl & Hcc').
    simpl in Hc, Hl, Hcc'.
    change (item_ticks s ((uid, t) :: rest))
      with (item_ticks (ItemActorTickHook s true uid t).1 rest).
    rewrite IH; rewrite ?Hc, ?Hl, ?Hcc'; try done.
    + rewrite Zplus_mod_idemp_l. f_equal.
      change (tick_changes (lastTickId s) ((uid, t) :: rest).*2)
        with (if t =? lastTickId s then tick_changes t rest.*2
              else S (tick_changes t rest.*2)).
      destruct (t =? lastTickId s); lia.
    + apply Z.mod_pos_bound. lia.
Qed.

(** The theorem on [st_step1] ([cleanupIntervalTicks = 100]): five calls
    in three frames move the counter from 0 to 3. *)
Lemma sweep_cadence_witness :
  cleanupCounter
    (item_ticks st_step1 [(1, 5); (2, 5); (3, 6); (1, 6); (1, 7)]) = 3.
Proof.
  rewrite (sweep_cadence st_step1 [(1, 5); (2, 5); (3, 6); (1, 6); (1, 7)]).
  - reflexivity.
  - reflexivity.
  - vm_compute. split; [discriminate | reflexivity].
  - vm_compute. discriminate.
Defined.

(** ** Ticks in order *)

(** What each event does to the store and the frame id. *)
Lemma step_store_tick (s : State) (e : Event) :
  match e with
  | EvDisable => lastItemTick (step s e) = ∅ ∧ lastTickId (step s e) = 0
  | EvItemTick is_item uid t =>
      (step s e = s ∨
       lastTickId (step s e) = t ∧
       (lastItemTick (step s e) = lastItemTick (frame_boundary s t) ∨
        lastItemTick (step s e)
          = <[uid:=t]> (lastItemTick (frame_boundary s t))))
  | EvDespawn uid | EvRemove uid =>
      lastTickId (step s e) = lastTickId s ∧
      (lastItemTick (step s e) = lastItemTick s ∨
       lastItemTick (step s e) = delete uid (lastItemTick s))
  | _ => lastItemTick (step s e) = lastItemTick s ∧
         lastTickId (step s e) = lastTickId s
  end.
Proof.
  destruct e as [parsed loaded | | | is_item uid t | elapsed | uid | uid |];
    simpl.
  - done.
  - unfold enable, startDebugTask. simpl. by split_ifs.
  - done.
  - unfold ItemActorTickHook.
    destruct (negb (enabled (config s)) || negb is_item); [by left |].
    right.
    pose proof (gate_effect (frame_boundary s t) uid t) as (_ & Hl & _).
    simpl in Hl. rewrite Hl, frame_boundary_lastTickId. split; [done |].
    gate_cases (frame_boundary s t) uid t; simpl; auto.
  - unfold LevelTickHook. by split_ifs.
  - unfold ActorDespawnHook, erase. destruct (enabled _); [| auto].
    destruct (_ !! uid); simpl; auto.
  - unfold ActorRemoveHook, erase. destruct (enabled _); [| auto].
    destruct (_ !! uid); simpl; auto.
  - unfold debugReport. by split_ifs.
Qed.

Lemma step_timestamps_bounded (s : State) (e : Event) :
  timestamps_bounded s →
  match e with
  | EvItemTick _ _ t => lastTickId s <= t < U64_MOD
  | _ => True
  end →
  timestamps_bounded (step s e).
Proof.
  intros [Hl Hm] He. pose proof (step_store_tick s e) as H.
  unfold timestamps_bounded.
  destruct e as [parsed loaded | | | is_item uid t | elapsed | uid | uid |];
    try (destruct H as [-> ->]; split;
         [done || (unfold U64_MOD; lia) | done || apply map_Forall_empty]).
  - destruct H as [-> | [-> Hst]]; [done |]. split; [lia |].
    assert (Hm0 : map_Forall (λ _ v, 0 <= v <= t)
                    (lastItemTick (frame_boundary s t))).
    { intros k v Hk.
      pose proof (lookup_weaken _ _ _ _ Hk
                    (frame_boundary_store_subseteq s t)) as Hk'.
      specialize (Hm k v Hk'). simpl in Hm. lia. }
    destruct Hst as [-> | ->]; [done |].
    apply map_Forall_insert_2; [lia | done].
  - destruct H as [-> [-> | ->]]; [done |]. split; [done |].
    by apply map_Forall_delete.
  - destruct H as [-> [-> | ->]]; [done |]. split; [done |].
    by apply map_Forall_delete.
Qed.

(** X18.  When the host never hands the item hook a tick before the one
    it handed last, every stored timestamp stays at or before the frame
    id, through every event.  So for any later tick the age
    [currentTick - lastTick] that the cooldown check and the sweep
    compute is the true difference: the unsigned subtraction never
    wraps. *)
Theorem timestamps_stay_bounded
    (s : State) (es : list Event)
    (Hstart : timestamps_bounded s)
    (Horder : ticks_in_order s es) :
  let s' := run s es in
  timestamps_bounded s' ∧
  ∀ k lastTick currentTick,
    lastItemTick s' !! k = Some lastTick →
    lastTickId s' <= currentTick < U64_MOD →
    u64_sub currentTick lastTick = currentTick - lastTick ∧
    0 <= currentTick - lastTick.
Proof.
  intros s'. subst s'.
  assert (H : timestamps_bounded (run s es)).
  { revert s Hstart Horder.
    induction es as [| e rest IH]; intros s Hs Ho; [done |].
    destruct Ho as [He Hrest]. simpl. apply IH; [| done].
    by apply step_timestamps_bounded. }
  split; [done |]. intros k v t Hk Ht. destruct H as [Hl Hm].
  specialize (Hm k v Hk). simpl in Hm.
  split; [| lia]. unfold u64_sub. apply to_u64_id. unfold u64_range. lia.
Qed.

(** The theorem on a trace from the static initialisers with ticks 5, 5,
    6 and a despawn in between: item 2, stamped 5, has age 95 at tick
    100. *)
Lemma timestamps_stay_bounded_witness :
  let s' := run init_state
              [EvEnable; EvItemTick true 1 5; EvItemTick true 2 5;
               EvDespawn 1; EvItemTick true 3 6] in
  lastItemTick s' !! 2 = Some 5 ∧ u64_sub 100 5 = 100 - 5.
Proof.
  intros s'. split; [reflexivity |].
  refine (proj1 (proj2 (timestamps_stay_bounded init_state
            [EvEnable; EvItemTick true 1 5; EvItemTick true 2 5;
             EvDespawn 1; EvItemTick true 3 6] _ _) 2 5 100 _ _)).
  - split; [vm_compute; split; [discriminate | reflexivity] |].
    apply map_Forall_empty.
  - vm_compute. repeat split; discriminate.
  - reflexivity.
  - vm_compute. split; [discriminate | reflexivity].
Defined.

(** ** No signed overflow *)

Lemma frame_boundary_ints (s : State) (t : Z) :
  ints_in_range s → ints_in_range (frame_boundary s t).
Proof.
  unfold ints_in_range. intros (Hp & Hcc & Hq & Hcd & Hn).
  unfold frame_boundary. destruct (t =? lastTickId s); [done |]. simpl.
  unfold int_add.
  rewrite to_int_id by (unfold int_range, INT_MIN, INT_MAX in *; lia).
  unfold int_range, INT_MIN, INT_MAX in *.
  destruct (_ <=? _) eqn:E; simpl.
  - repeat split; try done; lia.
  - apply Z.leb_gt in E. repeat split; try done; lia.
Qed.

Lemma gate_ints (s : State) (uid t : Z) :
  ints_in_range s → ints_in_range (gate s uid t).1.
Proof.
  unfold ints_in_range. intros (Hp & Hcc & Hq & Hcd & Hn).
  pose proof (gate_effect s uid t) as (Hc & _ & Hm & Hd & _ & Hal & Hot).
  simpl in *. rewrite gate_cleanupCounter, Hc, Hm, Hd.
  assert (Hp' : 0 <= processedThisTick (gate s uid t).1 <= INT_MAX).
  { unfold int_range, INT_MIN, INT_MAX in *.
    destruct (decide ((gate s uid t).2 = Allow)) as [Ha | Hna].
    - destruct (Hal Ha) as [Hlt ->]. unfold int_add.
      rewrite to_int_id by (unfold int_range, INT_MIN, INT_MAX; lia).
      lia.
    - rewrite (Hot Hna). lia. }
  done.
Qed.

Lemma step_ints (s : State) (e : Event) :
  load_int e → ints_in_range s → ints_in_range (step s e).
Proof.
  intros He Hs.
  destruct e as [parsed loaded | | | is_item uid t | elapsed | uid | uid |].
  - destruct Hs as (Hp & Hcc & Hq & Hcd & Hn). unfold ints_in_range.
    change (step s (EvLoad parsed loaded))
      with (loadConfig s parsed loaded).1.
    pose proof (loadConfig_fields s parsed loaded) as H. cbv zeta in H.
    destruct H as (_ & -> & _). simpl in He |- *.
    assert ((if cleanupIntervalTicks parsed <? 1 then 100
             else cleanupIntervalTicks parsed) <= INT_MAX)
      by (destruct (cleanupIntervalTicks parsed <? 1);
          [unfold INT_MAX; lia | done]).
    done.
  - destruct Hs as (Hp & Hcc & Hq & Hcd & Hn). unfold ints_in_range.
    change (step s EvEnable) with (enable s).1.
    pose proof (enable_effect s) as (-> & -> & ->).
    unfold enable, startDebugTask. simpl.
    assert (Hframe : ∀ (b1 b2 : bool) (s1 s2 : State),
              processedThisTick s1 = processedThisTick s →
              cleanupCounter s1 = cleanupCounter s →
              processedThisTick s2 = processedThisTick s →
              cleanupCounter s2 = cleanupCounter s →
              processedThisTick (if b1 then (if b2 then s1 else s2) else s1)
                = processedThisTick s ∧
              cleanupCounter (if b1 then (if b2 then s1 else s2) else s1)
                = cleanupCounter s)
      by (by intros [|] [|]).
    match goal with
    | |- context [if ?b1 then (if ?b2 then ?s1 else ?s2) else ?s1] =>
        destruct (Hframe b1 b2 s1 s2) as [-> ->]; try done
    end.
    repeat split; try done; try lia; apply to_int_range.
  - destruct Hs as (Hp & Hcc & Hq & Hcd & Hn).
    unfold ints_in_range, int_range, INT_MIN, INT_MAX in *.
    simpl. repeat split; try done; lia.
  - simpl. unfold ItemActorTickHook.
    destruct (negb (enabled (config s)) || negb is_item); [done |].
    by apply gate_ints, frame_boundary_ints.
  - destruct Hs as (Hp & Hcc & Hq & Hcd & Hn). unfold ints_in_range.
    simpl. unfold LevelTickHook.
    destruct (negb _); [done |].
    destruct (_ <? _); simpl; repeat split; try done; try lia;
      unfold int_range, INT_MIN, INT_MAX;
      try (pose proof (to_int_range
                         (dynMaxPerTick s - maxPerTickStep (config s))));
      try (pose proof (to_int_range
                         (dynMaxPerTick s + maxPerTickStep (config s))));
      try (pose proof (to_int_range
                         (dynCooldownTicks s
                          - cooldownTicksStep (config s))));
      try (pose proof (to_int_range
                         (dynCooldownTicks s
                          + cooldownTicksStep (config s))));
      unfold int_sub, int_add, int_range, INT_MIN, INT_MAX in *; lia.
  - simpl. unfold ActorDespawnHook, erase.
    destruct (enabled _); [| done]. by destruct (_ !! uid).
  - simpl. unfold ActorRemoveHook, erase.
    destruct (enabled _); [| done]. by destruct (_ !! uid).
  - simpl. unfold debugReport. by destruct (negb _).
Qed.

(** X19.  The two [int] counters of the gate never overflow.  In every
    state reached from the static initialisers (by any events, as long
    as a loaded [cleanupIntervalTicks] is an [int]) the in-frame counter
    lies in [0, INT_MAX], the cadence counter in [0, INT_MAX), and the
    quota and the cooldown are [int] values; so [++cleanupCounter] and,
    when the quota is free, [++processedThisTick] yield the exact
    successor. *)
Theorem gate_counters_never_overflow
    (es : list Event)
    (Hloads : Forall load_int es) :
  let s := run init_state es in
  ints_in_range s ∧
  int_add (cleanupCounter s) 1 = cleanupCounter s + 1 ∧
  (processedThisTick s < dynMaxPerTick s →
   int_add (processedThisTick s) 1 = processedThisTick s + 1).
Proof.
  intros s.
  assert (H : ints_in_range s).
  { subst s.
    enough (Hgen : ∀ s0, ints_in_range s0 → ints_in_range (run s0 es)).
    { apply Hgen. unfold ints_in_range, int_range, INT_MIN, INT_MAX.
      simpl. lia. }
    induction Hloads as [| e rest He _ IH]; intros s0 Hs0; [done |].
    simpl. apply IH. by apply step_ints. }
  split; [done |]. destruct H as (Hp & Hcc & Hq & Hcd & Hn).
  unfold int_add, int_range, INT_MIN, INT_MAX in *.
  split; [| intros Hlt];
    apply to_int_id; unfold int_range, INT_MIN, INT_MAX; lia.
Qed.

Lemma gate_counters_never_overflow_witness :
  ints_in_range
    (run init_state
       [EvLoad cfg_sweep_every_tick true; EvEnable;
        EvItemTick true 1 5; EvItemTick true 1 6; EvLevelTick 60]).
Proof.
  apply gate_counters_never_overflow.
  repeat constructor. vm_compute. discriminate.
Defined.

(** ** Growth of the store *)

Lemma frame_run_store_size (t : Z) (uids : list Z) :
  ∀ s : State,
    enabled (config s) = true →
    lastTickId s = t →
    (size (lastItemTick (frame_run s t uids).1)
     <= size (lastItemTick s) + count_allow (frame_run s t uids).2)%nat.
Proof.
  induction uids as [| uid rest IH]; intros s Hen Htick.
  - simpl. lia.
  - destruct (frame_run_cons s t uid rest) as [-> ->]. simpl.
    rewrite count_allow_cons.
    rewrite hook_gate by done. rewrite frame_boundary_same_tick by done.
    assert (Hstep : (size (lastItemTick (gate s uid t).1)
                     <= size (lastItemTick s)
                        + (if decide ((gate s uid t).2 = Allow)
                           then 1 else 0))%nat).
    { gate_cases s uid t; simpl; try lia;
        pose proof (map_size_insert uid t (lastItemTick s)) as Hs;
        rewrite Hl in Hs; simpl in Hs; lia. }
    pose proof (gate_effect s uid t) as (Hc & Hlt & _).
    specialize (IH (gate s uid t).1). simpl in Hc, Hlt.
    rewrite Hc, Hlt in IH. specialize (IH Hen Htick).
    destruct (decide ((gate s uid t).2 = Allow)); lia.
Qed.

(** X20.  The store grows by at most the quota per frame: after any run
    of gate calls with one [currentTick], started before the frame
    admitted anything, it holds at most [dynMaxPerTick] entries more
    than before (none more when the quota is not positive). *)
Theorem frame_store_growth
    (s : State) (currentTick : Z) (calls : list Z)
    (Henabled : enabled (config s) = true)
    (Hquota : int_range (dynMaxPerTick s))
    (Hfresh : currentTick ≠ lastTickId s ∨ processedThisTick s = 0) :
  Z.of_nat (size (lastItemTick (frame_run s currentTick calls).1))
    <= Z.of_nat (size (lastItemTick s)) + Z.max 0 (dynMaxPerTick s).
Proof.
  destruct calls as [| uid rest]; [simpl; lia |].
  rewrite frame_run_opens by done.
  set (s0 := frame_boundary s currentTick).
  assert (Hp0 : processedThisTick s0 = 0).
  { unfold s0. rewrite frame_boundary_processed.
    destruct (currentTick =? lastTickId s) eqn:E; [| done].
    apply Z.eqb_eq in E. by destruct Hfresh. }
  pose proof (frame_boundary_dyn s currentTick) as [Hd0 _]. fold s0 in Hd0.
  assert (Hen0 : enabled (config s0) = true)
    by (unfold s0; by rewrite frame_boundary_config).
  assert (Ht0 : lastTickId s0 = currentTick)
    by apply frame_boundary_lastTickId.
  pose proof (frame_run_in_frame currentTick (uid :: rest) s0 Hen0 Ht0
                ltac:(by rewrite Hd0) ltac:(lia)) as (_ & _ & _ & Hcount).
  pose proof (frame_run_bounded currentTick (uid :: rest) s0 Hen0 Ht0
                ltac:(by rewrite Hd0) ltac:(lia)) as Hb.
  pose proof (frame_run_store_size currentTick (uid :: rest) s0 Hen0 Ht0)
    as Hsize.
  pose proof (map_subseteq_size _ _
                (frame_boundary_store_subseteq s currentTick)) as Hsub.
  fold s0 in Hsub. rewrite Hd0, Hp0 in *. lia.
Qed.

(** The theorem on [st_step1] (empty store, quota 10): twelve new items
    at tick 5 leave at most ten entries. *)
Lemma frame_store_growth_witness :
  Z.of_nat (size (lastItemTick
    (frame_run st_step1 5 [1; 2; 3; 4; 5; 6; 7; 8; 9; 10; 11; 12]).1))
    <= Z.of_nat (size (lastItemTick st_step1)) + Z.max 0 10.
Proof.
  apply (frame_store_growth st_step1 5
           [1; 2; 3; 4; 5; 6; 7; 8; 9; 10; 11; 12]).
  - reflexivity.
  - vm_compute. split; discriminate.
  - left. vm_compute. discriminate.
Defined.
